(** * citygross.py: receipt aggregation and report rows

    A shallow embedding of [parse_receipts], [list_of_purchases] and the
    body of [print_receipts] from [citygross.py], with the properties the
    specification states about them.

    Modelling choices.
    - The decoded server response is the value [json.loads] hands to
      [parse_receipts]: a list of receipt objects.  Objects are records
      whose fields are optional, [None] standing for a key that is absent
      from the Python dict, which is where a subscript raises [KeyError].
      Field types follow the receipts endpoint: strings for [itemNumber]
      and [itemText], JSON numbers for [unitPrice] and [total].  A value
      that is present with another type ([null], a list, a string where a
      number is due), on which the code raises [TypeError], is outside the
      model: every statement below is about responses of this shape.
    - A JSON number is a Python [int] (unbounded, [Z]) or a Python [float]
      (binary64, the primitive [float]).  The decoder hands out one object
      for every [NaN] it reads.  [str] of an int is its decimal numeral, of
      any length (the digit limit of later CPython versions is not
      modelled).
    - A Python [str] is its UTF-8 byte string; byte-wise lexicographic
      order coincides with the code-point order Python compares by.
    - [all_items] is an insertion-ordered dict: an association list with
      unique keys, new keys appended at the end.
    - Exceptions are values of [exn]; a computation that can raise returns
      a [result]. *)

From Stdlib Require Import ZArith List String Ascii Bool Lia.
From Stdlib Require Import Permutation Sorted QArith.
From Stdlib Require Import PrimFloat SpecFloat FloatOps FloatAxioms.
From Stdlib Require DecimalString.
Import ListNotations.

Local Open Scope string_scope.
Local Open Scope Z_scope.

(** ** Exceptions and results *)

(** [KeyError] and [OverflowError] are the exceptions the modelled code can
    raise on inputs of the shape above.  [ParseError] is the error class the
    specification names; it is part of the type so that statements about it
    can be written. *)
Inductive exn : Type :=
| KeyError (key : string)
| OverflowError
| ParseError (receipt_index : nat).

Inductive result (A : Type) : Type :=
| OK (a : A)
| Raise (e : exn).

Arguments OK {A} a.
Arguments Raise {A} e.

Definition bind {A B : Type} (c : result A) (k : A -> result B) : result B :=
  match c with
  | OK a => k a
  | Raise e => Raise e
  end.

Notation "x <- c ;; k" := (bind c (fun x => k))
  (at level 61, c at next level, right associativity).

(** [d[key]] on a dict read from JSON: the value, or [KeyError(key)]. *)
Definition subscript {A : Type} (field : option A) (key : string) : result A :=
  match field with
  | Some v => OK v
  | None => Raise (KeyError key)
  end.

(** [for x in xs: state = body(state, x)], stopping at the first exception. *)
Fixpoint for_each {S A : Type} (xs : list A) (body : S -> A -> result S)
  (state : S) : result S :=
  match xs with
  | [] => OK state
  | x :: xs' => state' <- body state x ;; for_each xs' body state'
  end.

(** ** Python numbers *)

Inductive number : Type :=
| PyInt (z : Z)
| PyFloat (f : float).

(** [float(z)]: round to nearest, ties to even; [OverflowError] when the
    rounded value is not finite. *)
Definition float_of_int (z : Z) : result float :=
  match binary_normalize prec emax z 0 false with
  | S754_infinity _ => Raise OverflowError
  | sf => OK (SF2Prim sf)
  end.

(** [a + b]: integer addition on two ints, binary64 addition otherwise,
    an int operand being converted first. *)
Definition py_add (a b : number) : result number :=
  match a, b with
  | PyInt x, PyInt y => OK (PyInt (x + y))
  | PyInt x, PyFloat g => f <- float_of_int x ;; OK (PyFloat (f + g)%float)
  | PyFloat f, PyInt y => g <- float_of_int y ;; OK (PyFloat (f + g)%float)
  | PyFloat f, PyFloat g => OK (PyFloat (f + g)%float)
  end.

(** [sum(xs)]: [result = 0], then [result = result + x] for each [x] from
    left to right (the language definition, and CPython up to 3.11). *)
Definition py_sum (xs : list number) : result number :=
  for_each xs py_add (PyInt 0).

(** Exact comparison of a float with an int, as Python compares numbers of
    mixed type: [None] when the float is a NaN. *)
Definition float_compare_int (f : float) (z : Z) : option comparison :=
  match Prim2SF f with
  | S754_nan => None
  | S754_infinity s => Some (if s then Lt else Gt)
  | S754_zero _ => Some (0 ?= z)
  | S754_finite s m e =>
      let v := cond_Zopp s (Zpos m) in
      Some (if 0 <=? e then v * 2 ^ e ?= z else v ?= z * 2 ^ (- e))
  end.

Definition float_compare (f g : float) : option comparison :=
  match PrimFloat.compare f g with
  | FEq => Some Eq
  | FLt => Some Lt
  | FGt => Some Gt
  | FNotComparable => None
  end.

Definition number_compare (a b : number) : option comparison :=
  match a, b with
  | PyInt x, PyInt y => Some (x ?= y)
  | PyInt x, PyFloat g => option_map CompOpp (float_compare_int g x)
  | PyFloat f, PyInt y => float_compare_int f y
  | PyFloat f, PyFloat g => float_compare f g
  end.

(** ** [str] of a number *)

(** [str(z)] for an int: sign and decimal digits. *)
Definition str_int (z : Z) : string :=
  DecimalString.NilZero.string_of_int (Z.to_int z).

Definition decimal_length (c : Z) : Z := Z.of_nat (String.length (str_int c)).

Fixpoint strip_zeros (fuel : nat) (c : Z) : Z :=
  match fuel with
  | O => c
  | S fuel' =>
      if (0 <? c) && (c mod 10 =? 0) then strip_zeros fuel' (c / 10) else c
  end.

Fixpoint zeros (n : nat) : string :=
  match n with
  | O => ""
  | S n' => "0" ++ zeros n'
  end.

(** The least [j >= 1] with [den <= num * 10 ^ j], for [0 < num < den]. *)
Fixpoint negative_exponent (fuel : nat) (num den j : Z) : Z :=
  match fuel with
  | O => j
  | S fuel' =>
      if den <=? num * 10 ^ j then j
      else negative_exponent fuel' num den (j + 1)
  end.

(** [floor (log10 (m * 2 ^ e))] for [m > 0]. *)
Definition floor_log10 (m e : Z) : Z :=
  let num := m * 2 ^ Z.max e 0 in
  let den := 2 ^ Z.max (- e) 0 in
  if den <=? num then decimal_length (num / den) - 1
  else - negative_exponent 400 num den 1.

(** The decimals [c * 10 ^ k] with [n] digits next to [x = m * 2 ^ e] that
    read back as [x]: those inside the rounding interval of [x], whose ends
    are the midpoints to the neighbouring floats and belong to it when [m]
    is even.  All quantities are scaled to integers. *)
Definition shortest_candidate (m e p n : Z) : option (Z * Z) :=
  let E := e - 2 in
  let k := p - n + 1 in
  let P := 10 ^ Z.max k 0 * 2 ^ Z.max (- E) 0 in
  let R := 10 ^ Z.max (- k) 0 * 2 ^ Z.max E 0 in
  let X := 4 * m * R in
  let H := (4 * m + 2) * R in
  let L := (if (m =? 2 ^ 52) && (-1074 <? e) then 4 * m - 1 else 4 * m - 2) * R in
  let inside a :=
    if Z.even m then (L <=? a) && (a <=? H) else (L <? a) && (a <? H) in
  let lo := X / P in
  let hi := lo + 1 in
  match inside (lo * P), inside (hi * P) with
  | true, true => Some (if X - lo * P <=? hi * P - X then lo else hi, k)
  | true, false => Some (lo, k)
  | false, true => Some (hi, k)
  | false, false => None
  end.

(** Digit counts are tried from [n] upwards; 17 digits always identify a
    binary64 float, so the search started at 1 with fuel 17 succeeds. *)
Fixpoint shortest_digits (fuel : nat) (m e p n : Z) : Z * Z :=
  match fuel with
  | O => (0, 0)
  | S fuel' =>
      match shortest_candidate m e p n with
      | Some ck => ck
      | None => shortest_digits fuel' m e p (n + 1)
      end
  end.

(** [repr] of the positive finite float [m * 2 ^ e]: the shortest digit
    string that reads back as the same float, in exponent notation when the
    decimal point falls outside the digits by more than [repr] allows. *)
Definition repr_finite (m e : Z) : string :=
  let p := floor_log10 m e in
  let '(c, k) := shortest_digits 17 m e p 1 in
  let decpt := k + decimal_length c in
  let digits := str_int (strip_zeros (Z.to_nat (decimal_length c)) c) in
  let n := Z.of_nat (String.length digits) in
  if (decpt <=? -4) || (16 <? decpt) then
    let x := decpt - 1 in
    let mantissa :=
      match digits with
      | String d "" => String d ""
      | String d rest => String d ("." ++ rest)
      | "" => ""
      end in
    let exponent := str_int (Z.abs x) in
    mantissa ++ (if x <? 0 then "e-" else "e+")
      ++ (if Z.abs x <? 10 then "0" else "") ++ exponent
  else if decpt <=? 0 then "0." ++ zeros (Z.to_nat (- decpt)) ++ digits
  else if decpt <? n then
    substring 0 (Z.to_nat decpt) digits ++ "."
      ++ substring (Z.to_nat decpt) (Z.to_nat (n - decpt)) digits
  else digits ++ zeros (Z.to_nat (decpt - n)) ++ ".0".

(** [str(f)] for a float. *)
Definition str_float (f : float) : string :=
  match Prim2SF f with
  | S754_nan => "nan"
  | S754_infinity s => if s then "-inf" else "inf"
  | S754_zero s => if s then "-0.0" else "0.0"
  | S754_finite s m e => (if s then "-" else "") ++ repr_finite (Zpos m) e
  end.

Definition py_str (x : number) : string :=
  match x with
  | PyInt z => str_int z
  | PyFloat f => str_float f
  end.

(** [sep.join(parts)] *)
Fixpoint join (sep : string) (parts : list string) : string :=
  match parts with
  | [] => ""
  | [s] => s
  | s :: rest => s ++ sep ++ join sep rest
  end.

(** ** The decoded response *)

(** [{"itemNumber": ..., "itemText": ...}] *)
Record article_json : Type := {
  itemNumber : option string;
  itemText : option string
}.

(** [{"article": ..., "unitPrice": ..., "total": ...}] *)
Record item_json : Type := {
  article : option article_json;
  unitPrice : option number;
  total : option number
}.

(** [{"items": [...]}] *)
Record receipt_json : Type := {
  items : option (list item_json)
}.

(** ** Local representation *)

(** [Purchase = namedtuple('Purchase', 'unit_price total_price')] *)
Record Purchase : Type := {
  unit_price : number;
  total_price : number
}.

(** [Article = namedtuple('Article', 'name purchases')] *)
Record Article : Type := {
  name : string;
  purchases : list Purchase
}.

(** ** The dict [all_items] *)

Definition dict : Type := list (string * Article).

(** [d.get(k)] *)
Fixpoint dict_get (k : string) (d : dict) : option Article :=
  match d with
  | [] => None
  | (k', v) :: d' => if String.eqb k k' then Some v else dict_get k d'
  end.

(** [k in d] *)
Definition dict_contains (k : string) (d : dict) : bool :=
  match dict_get k d with
  | Some _ => true
  | None => false
  end.

(** [d[k] = v]: the value of an existing key is replaced where it stands, a
    new key goes to the end. *)
Fixpoint dict_set (k : string) (v : Article) (d : dict) : dict :=
  match d with
  | [] => [(k, v)]
  | (k', v') :: d' =>
      if String.eqb k k' then (k', v) :: d' else (k', v') :: dict_set k v d'
  end.

(** The effect of [d[k].purchases.append(p)] once [d[k]] is found: the list
    held by the entry of [k] grows in place, and the dict sees it. *)
Fixpoint dict_append (k : string) (p : Purchase) (d : dict) : dict :=
  match d with
  | [] => []
  | (k', v) :: d' =>
      if String.eqb k k'
      then (k', {| name := name v; purchases := purchases v ++ [p] |}) :: d'
      else (k', v) :: dict_append k p d'
  end.

Definition dict_keys (d : dict) : list string := map fst d.

(** [d.values()] *)
Definition dict_values (d : dict) : list Article := map snd d.

(** ** [parse_receipts] *)

(** The body of the inner loop, for one item line. *)
Definition parse_item (all_items : dict) (item : item_json) : result dict :=
  a <- subscript (article item) "article" ;;
  article_number <- subscript (itemNumber a) "itemNumber" ;;
  a' <- subscript (article item) "article" ;;
  article_text <- subscript (itemText a') "itemText" ;;
  let all_items :=
    if negb (dict_contains article_number all_items)
    then dict_set article_number
           {| name := article_text; purchases := [] |} all_items
    else all_items in
  _ <- subscript (dict_get article_number all_items) article_number ;;
  u <- subscript (unitPrice item) "unitPrice" ;;
  t <- subscript (total item) "total" ;;
  OK (dict_append article_number
        {| unit_price := u; total_price := t |} all_items).

(** The body of the outer loop, for one receipt. *)
Definition parse_receipt (all_items : dict) (receipt : receipt_json)
  : result dict :=
  its <- subscript (items receipt) "items" ;;
  for_each its parse_item all_items.

Definition parse_receipts (data : list receipt_json) : result dict :=
  for_each data parse_receipt [].

(** ** Comparison of articles *)

(** [sorted] compares two [Article] tuples with [<].  On tuples and lists
    [<] looks for the first position where the two sides are not [==] and
    compares there with [<]; when there is none, the shorter side is the
    smaller. *)

(** [a == b] *)
Definition number_eq (a b : number) : bool :=
  match number_compare a b with
  | Some Eq => true
  | _ => false
  end.

Definition number_lt (a b : number) : bool :=
  match number_compare a b with
  | Some Lt => true
  | _ => false
  end.

(** [a is b or a == b], the test by which tuples and lists tell whether
    two of their elements differ.  Numbers that are equal pass it; so do two
    NaNs, which are unequal but one object, the decoder's. *)
Definition number_same (a b : number) : bool :=
  match a, b with
  | PyFloat f, PyFloat g => (is_nan f && is_nan g) || number_eq a b
  | _, _ => number_eq a b
  end.

Definition purchase_eq (p q : Purchase) : bool :=
  number_same (unit_price p) (unit_price q)
  && number_same (total_price p) (total_price q).

Definition purchase_lt (p q : Purchase) : bool :=
  if number_same (unit_price p) (unit_price q) then
    if number_same (total_price p) (total_price q) then false
    else number_lt (total_price p) (total_price q)
  else number_lt (unit_price p) (unit_price q).

Fixpoint purchases_lt (ps qs : list Purchase) : bool :=
  match ps, qs with
  | [], [] => false
  | [], _ :: _ => true
  | _ :: _, [] => false
  | p :: ps', q :: qs' =>
      if purchase_eq p q then purchases_lt ps' qs' else purchase_lt p q
  end.

Definition article_lt (a b : Article) : bool :=
  if String.eqb (name a) (name b)
  then purchases_lt (purchases a) (purchases b)
  else String.ltb (name a) (name b).

(** ** [sorted] *)

(** Python's sort is stable and uses [<] only.  It is modelled as a stable
    insertion sort, which returns the same list as any stable sort whenever
    [<] orders the elements consistently. *)
Section Sorting.
Context {A : Type} (lt : A -> A -> bool).

Fixpoint insert (x : A) (l : list A) : list A :=
  match l with
  | [] => [x]
  | y :: l' => if lt y x then y :: insert x l' else x :: y :: l'
  end.

Definition sorted (l : list A) : list A := fold_right insert [] l.
End Sorting.

(** What Python promises of [sorted], whatever the algorithm: the result
    holds the elements of the input, no element is smaller than one before
    it, and elements of which neither is smaller than the other keep the
    order they had in the input. *)
Section SortContract.
Context {A : Type} (lt : A -> A -> bool).


End SortContract.

(** ** [list_of_purchases] *)

(** A row: [(purchase_count, article.name, total_price, unit_prices)]. *)
Definition row : Type := Z * string * number * string.

Definition row_count (r : row) : Z := let '(c, _, _, _) := r in c.
Definition row_name (r : row) : string := let '(_, n, _, _) := r in n.
Definition row_total (r : row) : number := let '(_, _, t, _) := r in t.
Definition row_unit_prices (r : row) : string := let '(_, _, _, u) := r in u.

(** What a generator does when it is run: it yields values one after the
    other and then returns, or raises. *)
Inductive generator (A : Type) : Type :=
| Done
| Yield (a : A) (rest : generator A)
| Throw (e : exn).

Arguments Done {A}.
Arguments Yield {A} a rest.
Arguments Throw {A} e.

(** [list(g)]: every yielded value, unless the generator raises. *)
Fixpoint consume {A : Type} (g : generator A) : result (list A) :=
  match g with
  | Done => OK []
  | Yield a rest => l <- consume rest ;; OK (a :: l)
  | Throw e => Raise e
  end.

(** The body of the loop, up to the [yield]. *)
Definition make_row (article : Article) : result row :=
  let purchase_count := Z.of_nat (List.length (purchases article)) in
  total_price <- py_sum (map total_price (purchases article)) ;;
  let unit_prices :=
    join ", " (map (fun x => py_str (unit_price x)) (purchases article)) in
  OK (purchase_count, name article, total_price, unit_prices).

Fixpoint yield_rows (articles : list Article) : generator row :=
  match articles with
  | [] => Done
  | article :: rest =>
      match make_row article with
      | OK r => Yield r (yield_rows rest)
      | Raise e => Throw e
      end
  end.

Definition list_of_purchases (receipts : list Article) : generator row :=
  yield_rows (sorted article_lt receipts).

(** ** [print_receipts] *)

Definition headers : list string :=
  ["Count"; "Item"; "Total Price"; "Unit Prices"].

(** The part of [print_receipts] that follows the download: [json_response]
    is the decoded body of the receipts request.  The value returned is the
    table handed to [tabulate] and printed, [tabulate] reading every row
    before anything is written. *)
Definition print_receipts (json_response : list receipt_json)
  : result (list string * list row) :=
  receipts <- parse_receipts json_response ;;
  rows <- consume (list_of_purchases (dict_values receipts)) ;;
  OK (headers, rows).

(** ** Notions the statements use *)

(** The item lines of all receipts, in the order the loops visit them. *)
Definition item_lines (data : list receipt_json) : list item_json :=
  flat_map (fun receipt =>
              match items receipt with
              | Some its => its
              | None => []
              end) data.

(** [item['article']['itemNumber']], when both keys are there. *)
Definition line_number (item : item_json) : option string :=
  match article item with
  | Some a => itemNumber a
  | None => None
  end.

(** [item['article']['itemText']], when both keys are there. *)
Definition line_text (item : item_json) : option string :=
  match article item with
  | Some a => itemText a
  | None => None
  end.

(** The line's article [itemNumber] equals [k]. *)
Definition refers_to (k : string) (item : item_json) : bool :=
  match line_number item with
  | Some n => String.eqb n k
  | None => false
  end.

(** [Purchase(item['unitPrice'], item['total'])], when both keys are there. *)
Definition purchase_of (item : item_json) : option Purchase :=
  match unitPrice item, total item with
  | Some u, Some t => Some {| unit_price := u; total_price := t |}
  | _, _ => None
  end.

(** The item numbers of the lines, one per line that has one. *)
Definition line_numbers (lines : list item_json) : list string :=
  flat_map (fun item =>
              match line_number item with
              | Some n => [n]
              | None => []
              end) lines.

(** Every key [parse_item] reads is present. *)
Definition complete_item (item : item_json) : bool :=
  match line_number item, line_text item, unitPrice item, total item with
  | Some _, Some _, Some _, Some _ => true
  | _, _, _, _ => false
  end.

(** The keys [parse_receipts] subscripts with. *)
Definition required_keys : list string :=
  ["items"; "article"; "itemNumber"; "itemText"; "unitPrice"; "total"].

(** Some line of some receipt lacks a key that [parse_item] reads. *)
Definition has_malformed_line (data : list receipt_json) : Prop :=
  Exists (fun item => complete_item item = false) (item_lines data).

(** The mathematical value of a number: [None] for infinities and NaN. *)
Definition exact_value (x : number) : option Q :=
  match x with
  | PyInt z => Some (inject_Z z)
  | PyFloat f =>
      match Prim2SF f with
      | S754_zero _ => Some 0%Q
      | S754_finite s m e =>
          let v := cond_Zopp s (Zpos m) in
          Some (if 0 <=? e then inject_Z (v * 2 ^ e)
                else Qmake v (Z.to_pos (2 ^ (- e))))
      | _ => None
      end
  end.

(** The sum of the values of [xs] in exact rational arithmetic. *)
Fixpoint exact_sum (xs : list number) : option Q :=
  match xs with
  | [] => Some 0%Q
  | x :: xs' =>
      match exact_value x, exact_sum xs' with
      | Some v, Some s => Some (v + s)%Q
      | _, _ => None
      end
  end.

(** The total of the row [r] is the exact sum of the [total_price] values of
    the purchases of [a]. *)
Definition total_is_exact (a : Article) (r : row) : Prop :=
  match exact_value (row_total r), exact_sum (map total_price (purchases a)) with
  | Some v, Some s => (v == s)%Q
  | _, _ => False
  end.

(** The entry of an item number after one more of its lines: the purchase
    goes to the end of the entry there was, or a new entry carries the
    line's text. *)
Definition entry_after (old : option Article) (text : string) (p : Purchase)
  : Article :=
  match old with
  | Some a => {| name := name a; purchases := purchases a ++ [p] |}
  | None => {| name := text; purchases := [p] |}
  end.

(** The first key the loops of [parse_receipts] would miss, in the order
    they subscript. *)
Definition missing_key (item : item_json) : option string :=
  match article item with
  | None => Some "article"
  | Some a =>
      match itemNumber a, itemText a, unitPrice item, total item with
      | None, _, _, _ => Some "itemNumber"
      | Some _, None, _, _ => Some "itemText"
      | Some _, Some _, None, _ => Some "unitPrice"
      | Some _, Some _, Some _, None => Some "total"
      | Some _, Some _, Some _, Some _ => None
      end
  end.

Fixpoint first_missing_in (lines : list item_json) : option string :=
  match lines with
  | [] => None
  | item :: lines' =>
      match missing_key item with
      | Some key => Some key
      | None => first_missing_in lines'
      end
  end.

Fixpoint first_missing_key (data : list receipt_json) : option string :=
  match data with
  | [] => None
  | receipt :: data' =>
      match items receipt with
      | None => Some "items"
      | Some its =>
          match first_missing_in its with
          | Some key => Some key
          | None => first_missing_key data'
          end
      end
  end.

(** Rows in ascending order of their item name. *)
Definition name_le (r1 r2 : row) : Prop :=
  String.leb (row_name r1) (row_name r2) = true.

(** ** Example inputs *)

(** An item line with every key present. *)
Definition item_line (num text : string) (unit tot : number) : item_json :=
  {| article := Some {| itemNumber := Some num; itemText := Some text |};
     unitPrice := Some unit;
     total := Some tot |}.

(** Two receipts with one line each, both for item [A1]. *)
Definition milk_receipts : list receipt_json :=
  [ {| items := Some [item_line "A1" "Milk" (PyInt 10) (PyInt 10)] |};
    {| items := Some [item_line "A1" "Milk" (PyInt 12) (PyInt 12)] |} ].

Definition milk_items : dict :=
  [ ("A1", {| name := "Milk";
              purchases := [ {| unit_price := PyInt 10; total_price := PyInt 10 |};
                             {| unit_price := PyInt 12; total_price := PyInt 12 |} ] |}) ].

(** Two receipts for three items; [B7] is bought twice, under two texts. *)
Definition grocery_receipts : list receipt_json :=
  [ {| items := Some [ item_line "B7" "Bread" (PyInt 25) (PyInt 50);
                       item_line "A1" "Milk" (PyInt 10) (PyInt 10) ] |};
    {| items := Some [] |};
    {| items := Some [ item_line "B7" "Loaf" (PyInt 27) (PyInt 27);
                       item_line "C3" "Apple" (PyInt 4) (PyInt 12) ] |} ].

Definition grocery_items : dict :=
  [ ("B7", {| name := "Bread";
              purchases := [ {| unit_price := PyInt 25; total_price := PyInt 50 |};
                             {| unit_price := PyInt 27; total_price := PyInt 27 |} ] |});
    ("A1", {| name := "Milk";
              purchases := [ {| unit_price := PyInt 10; total_price := PyInt 10 |} ] |});
    ("C3", {| name := "Apple";
              purchases := [ {| unit_price := PyInt 4; total_price := PyInt 12 |} ] |}) ].

Definition grocery_rows : list row :=
  [ (1, "Apple", PyInt 12, "4");
    (2, "Bread", PyInt 77, "25, 27");
    (1, "Milk", PyInt 10, "10") ].

(** The floats [json.loads] reads from [0.1] and [0.2]. *)
Definition tenth : float := 0x1.999999999999ap-4%float.
Definition fifth : float := 0x1.999999999999ap-3%float.

(** One item bought twice, at prices with a fractional part. *)
Definition candy_receipts : list receipt_json :=
  [ {| items := Some [item_line "K9" "Candy" (PyFloat tenth) (PyFloat tenth)] |};
    {| items := Some [item_line "K9" "Candy" (PyFloat fifth) (PyFloat fifth)] |} ].

Definition candy_article : Article :=
  {| name := "Candy";
     purchases := [ {| unit_price := PyFloat tenth; total_price := PyFloat tenth |};
                    {| unit_price := PyFloat fifth; total_price := PyFloat fifth |} ] |}.

Definition candy_row : row :=
  (2, "Candy", PyFloat 0x1.3333333333334p-2%float, "0.1, 0.2").

(** A receipt whose second line has no [unitPrice]. *)
Definition malformed_receipts : list receipt_json :=
  [ {| items := Some [ item_line "A1" "Milk" (PyInt 10) (PyInt 10);
                       {| article := Some {| itemNumber := Some "B7";
                                             itemText := Some "Bread" |};
                          unitPrice := None;
                          total := Some (PyInt 25) |} ] |} ].

(** ** Grouping, as a function of the item lines *)

(** The item numbers of [numbers] in the order of their first appearance,
    after those already [seen]. *)
Fixpoint first_appearances (seen numbers : list string) : list string :=
  match numbers with
  | [] => []
  | n :: numbers' =>
      if in_dec string_dec n seen then first_appearances seen numbers'
      else n :: first_appearances (n :: seen) numbers'
  end.

(** The purchases of the lines of [k], in the order of the lines. *)
Definition purchases_for (k : string) (lines : list item_json) : list Purchase :=
  flat_map (fun item =>
              match purchase_of item with
              | Some p => [p]
              | None => []
              end) (filter (refers_to k) lines).

(** The text of the first line of [k]. *)
Definition first_text (k : string) (lines : list item_json) : string :=
  match find (refers_to k) lines with
  | Some first =>
      match line_text first with
      | Some text => text
      | None => ""
      end
  | None => ""
  end.

(** The lines grouped by item number: one entry for each number, in the
    order of first appearance. *)
Definition group_lines (lines : list item_json) : dict :=
  map (fun k => (k, {| name := first_text k lines;
                       purchases := purchases_for k lines |}))
    (first_appearances [] (line_numbers lines)).

(** The receipt has an [items] key and each of its lines is complete. *)
Definition well_formed_receipt (receipt : receipt_json) : bool :=
  match items receipt with
  | Some its => forallb complete_item its
  | None => false
  end.

(** The purchases the dict holds for [k]: none when [k] is not a key. *)
Definition purchases_at (k : string) (d : dict) : list Purchase :=
  match dict_get k d with
  | Some a => purchases a
  | None => []
  end.

(** ** The script around the core: [login], [get_receipts],
    [print_receipts] and [main] *)

(** The script talks to the server through [session.post] and to the user
    through the two output streams.  A run is modelled by the events it
    leaves, in order, and by how it ends.  The server is given by what it
    answers to a request at each of the two URLs; an answer is the body as
    [resp.json()] decodes it, or the failure of the request.  The command
    line is given by what [parser.parse_args()] makes of it. *)
Module Script.

Definition LOGIN_URL : string :=
  "https://publicapi.citygross.se/publickdb/odata/Logins/SignIn".

Definition RECEIPTS_URL : string :=
  "https://publicapi.citygross.se/PublicContent/api/receipts".

(** The [json=] argument of a request. *)
Inductive request_json : Type :=
| SignIn (Email Password : string)
| Query (QueryParams : list string).

(** [session.post(url, headers=headers, json=req)] *)
Record request : Type := {
  url : string;
  request_headers : list (string * string);
  json : request_json
}.

(** The decoded body of the login answer: [Uid] is [None] when the key is
    absent. *)
Record login_json : Type := {
  Uid : option string
}.

(** An answer of the server: a decoded body, or the request or its
    decoding fails and the client library raises. *)
Inductive answer (A : Type) : Type :=
| Body (a : A)
| ClientFailure.

Arguments Body {A} a.
Arguments ClientFailure {A}.

Record server : Type := {
  sign_in : request -> answer login_json;
  receipts : request -> answer (list receipt_json)
}.

(** What a run does to the outside. *)
Inductive event : Type :=
| Post (r : request)
| Stdout (table : list string * list row)
| Stderr (text : string)
| Usage (message : string)
| Help (text : string).

(** An uncaught exception: one of the core's, or the client library's. *)
Inductive exception : Type :=
| Python (e : exn)
| ClientError.

(** How a piece of the script ends. *)
Inductive outcome (A : Type) : Type :=
| Return (a : A)
| Raises (e : exception)
| SystemExit (status : Z).

Arguments Return {A} a.
Arguments Raises {A} e.
Arguments SystemExit {A} status.

(** A piece of the script: from the events so far to the events after it
    and its outcome. *)
Definition io (A : Type) : Type := list event -> list event * outcome A.

Definition io_bind {A B : Type} (c : io A) (k : A -> io B) : io B :=
  fun trace =>
    match c trace with
    | (trace', Return a) => k a trace'
    | (trace', Raises e) => (trace', Raises e)
    | (trace', SystemExit status) => (trace', SystemExit status)
    end.

Notation "x <-- c ;; k" := (io_bind c (fun x => k))
  (at level 61, c at next level, right associativity).

Definition emit (ev : event) : io unit :=
  fun trace => ((trace ++ [ev])%list, Return tt).

(** A computation of the core inside the script. *)
Definition lift {A : Type} (c : result A) : io A :=
  fun trace =>
    match c with
    | OK a => (trace, Return a)
    | Raise e => (trace, Raises (Python e))
    end.

(** [sys.exit(status)] *)
Definition sys_exit {A : Type} (status : Z) : io A :=
  fun trace => (trace, SystemExit status).

(** [async with session.post(...) as resp: await resp.json()] *)
Definition post {A : Type} (endpoint : request -> answer A) (r : request)
  : io A :=
  fun trace =>
    match endpoint r with
    | Body a => ((trace ++ [Post r])%list, Return a)
    | ClientFailure => ((trace ++ [Post r])%list, Raises ClientError)
    end.

Definition login (srv : server) (email password : string) : io string :=
  let req := SignIn email password in
  let headers := [("Content-Type", "application/json")] in
  resp <-- post (sign_in srv)
             {| url := LOGIN_URL; request_headers := headers; json := req |} ;;
  lift (subscript (Uid resp) "Uid").

Definition get_receipts (srv : server) (token : string) : io dict :=
  let req := Query ["$orderBy=endDateTimeUtc desc";
                    "$filter=flags/isDeleted eq false"] in
  let headers := [("Content-Type", "application/json");
                  ("Authorization", "Bearer " ++ token)] in
  json_response <-- post (receipts srv)
                      {| url := RECEIPTS_URL; request_headers := headers;
                         json := req |} ;;
  lift (parse_receipts json_response).

Definition print_receipts (srv : server) (email password : string) : io unit :=
  token <-- login srv email password ;;
  receipts <-- get_receipts srv token ;;
  rows <-- lift (consume (list_of_purchases (dict_values receipts))) ;;
  emit (Stdout (headers, rows)).

(** The namespace [parse_args] returns. *)
Record namespace : Type := {
  command : string;
  email : option string;
  password : option string
}.

(** [not value] for an optional string argument. *)
Definition not_given (value : option string) : bool :=
  match value with
  | None => true
  | Some "" => true
  | Some _ => false
  end.

(** [parser.error(message)]: usage and message on the error stream, exit
    status 2. *)
Definition parser_error {A : Type} (message : string) : io A :=
  fun trace => ((trace ++ [Usage message])%list, SystemExit 2).

Definition newline : string := String (ascii_of_nat 10) "".

(** What [parser.parse_args()] makes of the command line: the namespace;
    or, for [-h], the help text on the standard output and exit status 0;
    or, for a command line it does not accept (no command, an unknown
    option, an option without its value), a usage error and exit status
    2. *)
Inductive command_line : Type :=
| Namespace (args : namespace)
| HelpRequested (text : string)
| ArgumentError (message : string).

Definition parse_args (argv : command_line) : io namespace :=
  fun trace =>
    match argv with
    | Namespace args => (trace, Return args)
    | HelpRequested text => ((trace ++ [Help text])%list, SystemExit 0)
    | ArgumentError message => ((trace ++ [Usage message])%list, SystemExit 2)
    end.

Definition main (srv : server) (argv : command_line) : io unit :=
  args <-- parse_args argv ;;
  if not_given (email args) || not_given (password args) then
    parser_error "Email and password must be specified"
  else
    match email args, password args with
    | Some e, Some p =>
        if String.eqb (command args) "print" then print_receipts srv e p
        else
          _ <-- emit (Stderr ("Unknown command: " ++ command args ++ newline)) ;;
          sys_exit 1
    | _, _ =>
        (* not reached: both arguments are given here *)
        parser_error "Email and password must be specified"
    end.

(** The requests among the events. *)
Definition requests (trace : list event) : list request :=
  flat_map (fun ev => match ev with Post r => [r] | _ => [] end) trace.

(** The tables written to the standard output. *)
Definition printed (trace : list event) : list (list string * list row) :=
  flat_map (fun ev => match ev with Stdout t => [t] | _ => [] end) trace.

(** The help texts written to the standard output. *)
Definition help_texts (trace : list event) : list string :=
  flat_map (fun ev => match ev with Help t => [t] | _ => [] end) trace.

(** The login request for [e] and [p], and the receipts request for a
    token. *)
Definition login_request (e p : string) : request :=
  {| url := LOGIN_URL;
     request_headers := [("Content-Type", "application/json")];
     json := SignIn e p |}.

Definition receipts_request (token : string) : request :=
  {| url := RECEIPTS_URL;
     request_headers := [("Content-Type", "application/json");
                         ("Authorization", "Bearer " ++ token)];
     json := Query ["$orderBy=endDateTimeUtc desc";
                    "$filter=flags/isDeleted eq false"] |}.

(** A server that knows one account and answers with the grocery receipts. *)
Definition shop : server :=
  {| sign_in := fun r =>
       match json r with
       | SignIn "ann@example.com" "secret" => Body {| Uid := Some "T0K3N" |}
       | _ => Body {| Uid := None |}
       end;
     receipts := fun r => Body grocery_receipts |}.

End Script.

(** * Properties *)

Local Open Scope list_scope.

(** ** Results and loops *)

Lemma bind_OK {A B : Type} (c : result A) (k : A -> result B) (b : B) :
  bind c k = OK b -> exists a, c = OK a /\ k a = OK b.
Proof.
  destruct c as [a | e]; simpl; intros H.
  - exists a. split; [reflexivity | exact H].
  - discriminate H.
Qed.

Lemma for_each_app {S A : Type} (body : S -> A -> result S) (xs ys : list A)
  (s : S) :
  for_each (xs ++ ys) body s = (s' <- for_each xs body s ;; for_each ys body s').
Proof.
  revert s. induction xs as [| x xs IH]; intros s; simpl.
  - reflexivity.
  - destruct (body s x) as [s1 | e]; simpl; [apply IH | reflexivity].
Qed.

Ltac invert_bind H :=
  let a := fresh "a" in
  let Ha := fresh "H" a in
  apply bind_OK in H; destruct H as (a & Ha & H).

(** ** The dict *)

Lemma dict_get_set_same k v d : dict_get k (dict_set k v d) = Some v.
Proof.
  induction d as [| [k' v'] d IH]; simpl.
  - now rewrite String.eqb_refl.
  - destruct (String.eqb k k') eqn:E; simpl; rewrite E; [reflexivity | exact IH].
Qed.

Lemma dict_get_set_other k k' v d :
  k <> k' -> dict_get k' (dict_set k v d) = dict_get k' d.
Proof.
  intros Hne. induction d as [| [k0 v0] d IH]; simpl.
  - destruct (String.eqb k' k) eqn:E; [| reflexivity].
    apply String.eqb_eq in E. congruence.
  - destruct (String.eqb k k0) eqn:E; simpl.
    + apply String.eqb_eq in E. subst k0.
      destruct (String.eqb k' k) eqn:E'; [| reflexivity].
      apply String.eqb_eq in E'. congruence.
    + now rewrite IH.
Qed.

Lemma dict_get_append_same k p d :
  dict_get k (dict_append k p d) =
  option_map (fun v => {| name := name v; purchases := purchases v ++ [p] |})
    (dict_get k d).
Proof.
  induction d as [| [k' v'] d IH]; simpl.
  - reflexivity.
  - destruct (String.eqb k k') eqn:E; simpl; rewrite E; [reflexivity | exact IH].
Qed.

Lemma dict_get_append_other k k' p d :
  k <> k' -> dict_get k' (dict_append k p d) = dict_get k' d.
Proof.
  intros Hne. induction d as [| [k0 v0] d IH]; simpl.
  - reflexivity.
  - destruct (String.eqb k k0) eqn:E; simpl.
    + apply String.eqb_eq in E. subst k0.
      destruct (String.eqb k' k) eqn:E'; [| reflexivity].
      apply String.eqb_eq in E'. congruence.
    + now rewrite IH.
Qed.

Lemma dict_keys_append k p d : dict_keys (dict_append k p d) = dict_keys d.
Proof.
  unfold dict_keys. induction d as [| [k' v'] d IH]; simpl.
  - reflexivity.
  - destruct (String.eqb k k'); simpl; [reflexivity | now rewrite IH].
Qed.

Lemma dict_get_None_keys k d : dict_get k d = None <-> ~ In k (dict_keys d).
Proof.
  unfold dict_keys. induction d as [| [k' v'] d IH]; simpl.
  - tauto.
  - destruct (String.eqb k k') eqn:E.
    + apply String.eqb_eq in E. subst k'. split; [discriminate | tauto].
    + apply String.eqb_neq in E. rewrite IH. split.
      * intros H [H' | H']; [congruence | tauto].
      * tauto.
Qed.

Lemma dict_keys_set_new k v d :
  dict_get k d = None -> dict_keys (dict_set k v d) = dict_keys d ++ [k].
Proof.
  unfold dict_keys. induction d as [| [k' v'] d IH]; simpl.
  - reflexivity.
  - destruct (String.eqb k k') eqn:E; [discriminate |].
    intros H. simpl. now rewrite IH.
Qed.

Lemma In_dict_get k a d :
  NoDup (dict_keys d) -> In (k, a) d -> dict_get k d = Some a.
Proof.
  unfold dict_keys. induction d as [| [k' v'] d IH]; simpl.
  - tauto.
  - intros Hnd. inversion Hnd as [| ? ? Hnotin Hnd']; subst.
    intros [[= -> ->] | Hin].
    + now rewrite String.eqb_refl.
    + destruct (String.eqb k k') eqn:E.
      * apply String.eqb_eq in E. subst k'. exfalso. apply Hnotin.
        change k with (fst (k, a)). now apply in_map.
      * now apply IH.
Qed.

(** After the [if], the item number is a key of the dict. *)
Lemma dict_get_ensured k text d :
  dict_get k
    (if negb (dict_contains k d)
     then dict_set k {| name := text; purchases := [] |} d
     else d) =
  Some (match dict_get k d with
        | Some v => v
        | None => {| name := text; purchases := [] |}
        end).
Proof.
  unfold dict_contains. destruct (dict_get k d) eqn:Hget; simpl.
  - exact Hget.
  - apply dict_get_set_same.
Qed.

(** ** One item line *)

(** What a successful pass over one line does to the dict. *)
Lemma parse_item_OK d item d' :
  parse_item d item = OK d' ->
  exists k text p,
    line_number item = Some k /\ line_text item = Some text /\
    purchase_of item = Some p /\
    dict_get k d' = Some (entry_after (dict_get k d) text p) /\
    (forall k', k <> k' -> dict_get k' d' = dict_get k' d) /\
    dict_keys d' = if dict_contains k d then dict_keys d else dict_keys d ++ [k].
Proof.
  unfold parse_item, line_number, line_text, purchase_of, subscript.
  destruct (article item) as [a |]; simpl; [| discriminate].
  destruct (itemNumber a) as [k |]; simpl; [| discriminate].
  destruct (itemText a) as [text |]; simpl; [| discriminate].
  rewrite dict_get_ensured. simpl.
  destruct (unitPrice item) as [u |]; simpl; [| discriminate].
  destruct (total item) as [t |]; simpl; [| discriminate].
  intros [= <-]. exists k, text, {| unit_price := u; total_price := t |}.
  repeat split.
  - rewrite dict_get_append_same. unfold dict_contains.
    destruct (dict_get k d) as [old |] eqn:Hget; simpl.
    + now rewrite Hget.
    + now rewrite dict_get_set_same.
  - intros k' Hne. rewrite dict_get_append_other by exact Hne.
    unfold dict_contains. destruct (dict_get k d); simpl; [reflexivity |].
    now apply dict_get_set_other.
  - rewrite dict_keys_append. unfold dict_contains.
    destruct (dict_get k d) eqn:Hget; simpl; [reflexivity |].
    now apply dict_keys_set_new.
Qed.

Lemma parse_item_OK_complete d item d' :
  parse_item d item = OK d' -> complete_item item = true.
Proof.
  intros H. apply parse_item_OK in H.
  destruct H as (k & text & p & Hk & Ht & Hp & _).
  unfold complete_item, purchase_of in *. rewrite Hk, Ht.
  destruct (unitPrice item); [| discriminate].
  destruct (total item); [reflexivity | discriminate].
Qed.

(** A line can only fail with the [KeyError] of a key it lacks. *)
Lemma parse_item_Raise d item e :
  parse_item d item = Raise e ->
  exists key, In key required_keys /\ e = KeyError key.
Proof.
  unfold parse_item, subscript, required_keys.
  destruct (article item) as [a |]; simpl.
  2: { intros [= <-]. eexists. split; [| reflexivity]. simpl. tauto. }
  destruct (itemNumber a); simpl.
  2: { intros [= <-]. eexists. split; [| reflexivity]. simpl. tauto. }
  destruct (itemText a); simpl.
  2: { intros [= <-]. eexists. split; [| reflexivity]. simpl. tauto. }
  rewrite dict_get_ensured. simpl.
  destruct (unitPrice item); simpl.
  2: { intros [= <-]. eexists. split; [| reflexivity]. simpl. tauto. }
  destruct (total item); simpl.
  2: { intros [= <-]. eexists. split; [| reflexivity]. simpl. tauto. }
  discriminate.
Qed.

(** ** The two loops *)

(** A successful run of the nested loops is a run of the inner body over
    all item lines. *)
Lemma parse_receipts_lines data d m :
  for_each data parse_receipt d = OK m ->
  for_each (item_lines data) parse_item d = OK m.
Proof.
  revert d. induction data as [| receipt data IH]; intros d; simpl.
  - auto.
  - intros H. invert_bind H. unfold parse_receipt, subscript in Ha.
    destruct (items receipt) as [its |]; simpl in Ha; [| discriminate].
    rewrite for_each_app, Ha. simpl. now apply IH.
Qed.

Lemma for_each_parse_item_complete lines d m :
  for_each lines parse_item d = OK m ->
  Forall (fun item => complete_item item = true) lines.
Proof.
  revert d. induction lines as [| item lines IH]; intros d; simpl.
  - constructor.
  - intros H. invert_bind H. constructor.
    + eapply parse_item_OK_complete; eassumption.
    + eapply IH; eassumption.
Qed.

(** The loops either return a dict or raise the [KeyError] of a required
    key. *)
Lemma for_each_parse_item_result lines d :
  (exists m, for_each lines parse_item d = OK m) \/
  (exists key, In key required_keys /\
               for_each lines parse_item d = Raise (KeyError key)).
Proof.
  revert d. induction lines as [| item lines IH]; intros d; simpl.
  - left. eexists. reflexivity.
  - destruct (parse_item d item) as [d1 | e] eqn:Hitem; simpl.
    + apply IH.
    + right. apply parse_item_Raise in Hitem.
      destruct Hitem as (key & Hin & ->). exists key. auto.
Qed.

Lemma parse_receipt_result d receipt :
  (exists d1, parse_receipt d receipt = OK d1) \/
  (exists key, In key required_keys /\
               parse_receipt d receipt = Raise (KeyError key)).
Proof.
  unfold parse_receipt, subscript.
  destruct (items receipt) as [its |]; simpl.
  - apply for_each_parse_item_result.
  - right. exists "items". split; [simpl; tauto | reflexivity].
Qed.

Lemma parse_receipts_result data d :
  (exists m, for_each data parse_receipt d = OK m) \/
  (exists key, In key required_keys /\
               for_each data parse_receipt d = Raise (KeyError key)).
Proof.
  revert d. induction data as [| receipt data IH]; intros d.
  - left. eexists. reflexivity.
  - cbn [for_each].
    destruct (parse_receipt_result d receipt)
      as [(d1 & ->) | (key & Hin & ->)]; cbn [bind].
    + apply IH.
    + right. exists key. auto.
Qed.

(** ** What the dict holds after the loops *)

(** The entry of [k] after a run over [lines] from the dict [d]: the entry
    [d] had with the purchases of the lines of [k] appended in order, or a
    new entry named by the first line of [k], or none. *)
Lemma for_each_parse_item_entry lines : forall d m,
  for_each lines parse_item d = OK m ->
  forall k,
    match dict_get k d with
    | Some a =>
        exists a', dict_get k m = Some a' /\ name a' = name a /\
          map Some (purchases a') =
          map Some (purchases a) ++ map purchase_of (filter (refers_to k) lines)
    | None =>
        match find (refers_to k) lines with
        | Some first =>
            exists a', dict_get k m = Some a' /\
              line_text first = Some (name a') /\
              map Some (purchases a') =
              map purchase_of (filter (refers_to k) lines)
        | None => dict_get k m = None
        end
    end.
Proof.
  induction lines as [| item lines IH]; intros d m H k.
  - simpl in H. injection H as <-.
    destruct (dict_get k d) as [a |] eqn:Hget; simpl; [| reflexivity].
    exists a. rewrite app_nil_r. auto.
  - cbn [for_each] in H. invert_bind H. rename a into d1.
    destruct (parse_item_OK _ _ _ Ha)
      as (k0 & text & p & Hk0 & Htext & Hp & Hsame & Hother & _).
    specialize (IH d1 m H k). cbn [find filter].
    assert (Hr : refers_to k item = String.eqb k0 k)
      by (unfold refers_to; now rewrite Hk0).
    rewrite Hr.
    destruct (String.eqb k0 k) eqn:E.
    + apply String.eqb_eq in E. subst k0. rewrite Hsame in IH.
      destruct IH as (a' & Hm & Hname & Hps).
      destruct (dict_get k d) as [a |]; simpl in Hname, Hps.
      * exists a'. repeat split; [exact Hm | exact Hname |].
        rewrite Hps, map_app, <- app_assoc. simpl. now rewrite Hp.
      * exists a'. repeat split; [exact Hm | congruence |].
        simpl. now rewrite Hp, Hps.
    + apply String.eqb_neq in E. rewrite (Hother k E) in IH. exact IH.
Qed.

(** The keys after a run: the keys there were, in their order, followed by
    the new item numbers; no key twice. *)
Lemma for_each_parse_item_NoDup lines : forall d m,
  for_each lines parse_item d = OK m ->
  NoDup (dict_keys d) -> NoDup (dict_keys m).
Proof.
  induction lines as [| item lines IH]; intros d m H Hnd.
  - simpl in H. now injection H as <-.
  - cbn [for_each] in H. invert_bind H. rename a into d1.
    apply (IH d1 m H).
    destruct (parse_item_OK _ _ _ Ha) as (k0 & _ & _ & _ & _ & _ & _ & _ & Hkeys).
    rewrite Hkeys. unfold dict_contains.
    destruct (dict_get k0 d) eqn:Hget; [exact Hnd |].
    apply dict_get_None_keys in Hget.
    apply NoDup_rev in Hnd. rewrite <- (rev_involutive (dict_keys d ++ [k0])).
    apply NoDup_rev. rewrite rev_app_distr. simpl. constructor.
    + now rewrite <- in_rev.
    + exact Hnd.
Qed.

Lemma In_line_numbers k lines :
  In k (line_numbers lines) <-> exists item, In item lines /\ refers_to k item = true.
Proof.
  unfold line_numbers, refers_to. rewrite in_flat_map. split.
  - intros (item & Hin & Hk). exists item. split; [exact Hin |].
    destruct (line_number item) as [n |]; simpl in Hk; [| tauto].
    destruct Hk as [-> | []]. apply String.eqb_refl.
  - intros (item & Hin & Hk). exists item. split; [exact Hin |].
    destruct (line_number item) as [n |]; [| discriminate].
    apply String.eqb_eq in Hk. simpl. auto.
Qed.

(** Facts about what [parse_receipts] returns, for the theorems below. *)
Lemma parse_receipts_entry data m k a :
  parse_receipts data = OK m ->
  dict_get k m = Some a ->
  exists first,
    find (refers_to k) (item_lines data) = Some first /\
    line_text first = Some (name a) /\
    map Some (purchases a) =
    map purchase_of (filter (refers_to k) (item_lines data)).
Proof.
  intros H Hget. apply parse_receipts_lines in H.
  pose proof (for_each_parse_item_entry _ _ _ H k) as Hk. simpl in Hk.
  destruct (find (refers_to k) (item_lines data)) as [first |].
  - destruct Hk as (a' & Hm & Htext & Hps).
    assert (a' = a) by congruence. subst a'. exists first. auto.
  - congruence.
Qed.

Lemma parse_receipts_NoDup data m :
  parse_receipts data = OK m -> NoDup (dict_keys m).
Proof.
  intros H. apply parse_receipts_lines in H.
  apply (for_each_parse_item_NoDup _ _ _ H). constructor.
Qed.

Lemma parse_receipts_keys data m k :
  parse_receipts data = OK m ->
  In k (dict_keys m) <-> In k (line_numbers (item_lines data)).
Proof.
  intros H. apply parse_receipts_lines in H.
  pose proof (for_each_parse_item_entry _ _ _ H k) as Hk. simpl in Hk.
  rewrite In_line_numbers. split.
  - intros Hin. destruct (find (refers_to k) (item_lines data)) as [first |] eqn:F.
    + apply find_some in F. exists first. exact F.
    + apply dict_get_None_keys in Hk. contradiction.
  - intros (item & Hin & Hrefers).
    destruct (find (refers_to k) (item_lines data)) as [first |] eqn:F.
    + destruct Hk as (a' & Hm & _).
      destruct (in_dec string_dec k (dict_keys m)) as [Hyes | Hno]; [exact Hyes |].
      apply dict_get_None_keys in Hno. congruence.
    + exfalso. pose proof (find_none _ _ F item Hin). congruence.
Qed.

(** ** The order on names *)

Lemma string_compare_refl s : String.compare s s = Eq.
Proof.
  pose proof (String.compare_antisym s s) as H.
  destruct (String.compare s s); simpl in H; congruence.
Qed.

Lemma string_compare_lt_trans a : forall b c,
  String.compare a b = Lt -> String.compare b c = Lt -> String.compare a c = Lt.
Proof.
  induction a as [| x a IH]; intros [| y b] [| z c]; simpl; try congruence.
  unfold Ascii.compare.
  destruct (N.compare_spec (N_of_ascii x) (N_of_ascii y)) as [Exy | Lxy | Gxy];
    destruct (N.compare_spec (N_of_ascii y) (N_of_ascii z)) as [Eyz | Lyz | Gyz];
    destruct (N.compare_spec (N_of_ascii x) (N_of_ascii z)) as [Exz | Lxz | Gxz];
    try congruence; try lia.
  apply IH.
Qed.

Lemma string_leb_refl s : String.leb s s = true.
Proof. unfold String.leb. now rewrite string_compare_refl. Qed.

Lemma string_leb_trans a b c :
  String.leb a b = true -> String.leb b c = true -> String.leb a c = true.
Proof.
  unfold String.leb.
  destruct (String.compare a b) eqn:Hab; [| | discriminate]; intros _.
  - apply String.compare_eq_iff in Hab. now subst b.
  - destruct (String.compare b c) eqn:Hbc; [| | discriminate]; intros _.
    + apply String.compare_eq_iff in Hbc. subst c. now rewrite Hab.
    + now rewrite (string_compare_lt_trans a b c Hab Hbc).
Qed.

Lemma string_ltb_leb a b : String.ltb a b = true -> String.leb a b = true.
Proof.
  unfold String.ltb, String.leb. now destruct (String.compare a b).
Qed.

Lemma string_not_ltb_leb a b : String.ltb a b = false -> String.leb b a = true.
Proof.
  unfold String.ltb, String.leb. rewrite (String.compare_antisym b a).
  now destruct (String.compare a b).
Qed.

(** [article_lt] puts the name first. *)
Lemma article_lt_name a b :
  article_lt a b = true -> String.leb (name a) (name b) = true.
Proof.
  unfold article_lt. destruct (String.eqb (name a) (name b)) eqn:E.
  - apply String.eqb_eq in E. rewrite E. intros _. apply string_leb_refl.
  - apply string_ltb_leb.
Qed.

Lemma article_not_lt_name a b :
  article_lt a b = false -> String.leb (name b) (name a) = true.
Proof.
  unfold article_lt. destruct (String.eqb (name a) (name b)) eqn:E.
  - apply String.eqb_eq in E. rewrite E. intros _. apply string_leb_refl.
  - apply string_not_ltb_leb.
Qed.

(** ** Sorting *)

Section SortingFacts.
Context {A : Type} (lt : A -> A -> bool).

Lemma insert_Permutation x l : Permutation (insert lt x l) (x :: l).
Proof.
  induction l as [| y l IH]; simpl.
  - apply Permutation_refl.
  - destruct (lt y x).
    + eapply perm_trans; [apply perm_skip, IH | apply perm_swap].
    + apply Permutation_refl.
Qed.

Lemma sorted_Permutation l : Permutation (sorted lt l) l.
Proof.
  induction l as [| x l IH]; simpl.
  - constructor.
  - eapply perm_trans; [apply insert_Permutation | now apply perm_skip].
Qed.

(** Sorting by a key of the elements and taking the keys is sorting the
    keys. *)
Lemma insert_map {B : Type} (f : B -> A) x l :
  map f (insert (fun u v => lt (f u) (f v)) x l) = insert lt (f x) (map f l).
Proof.
  induction l as [| y l IH]; simpl.
  - reflexivity.
  - destruct (lt (f y) (f x)); simpl; [now rewrite IH | reflexivity].
Qed.

Lemma sorted_map {B : Type} (f : B -> A) l :
  map f (sorted (fun u v => lt (f u) (f v)) l) = sorted lt (map f l).
Proof.
  induction l as [| x l IH]; simpl.
  - reflexivity.
  - now rewrite insert_map, IH.
Qed.

(** Insertion keeps a list ordered by any relation [le] that [lt] and its
    failure imply. *)
Variable le : A -> A -> Prop.
Hypothesis le_trans : forall x y z, le x y -> le y z -> le x z.
Hypothesis lt_le : forall x y, lt x y = true -> le x y.
Hypothesis not_lt_le : forall x y, lt x y = false -> le y x.

Lemma insert_StronglySorted x l :
  StronglySorted le l -> StronglySorted le (insert lt x l).
Proof.
  induction 1 as [| y l Hsorted IH Hall]; simpl.
  - repeat constructor.
  - destruct (lt y x) eqn:E.
    + constructor; [exact IH |].
      apply Forall_forall. intros z Hz.
      apply (Permutation_in _ (insert_Permutation x l)) in Hz.
      destruct Hz as [<- | Hz]; [now apply lt_le |].
      rewrite Forall_forall in Hall. now apply Hall.
    + constructor; [now constructor |].
      constructor; [now apply not_lt_le |].
      apply Forall_forall. intros z Hz. rewrite Forall_forall in Hall.
      apply le_trans with y; [now apply not_lt_le | now apply Hall].
Qed.

Lemma sorted_StronglySorted l : StronglySorted le (sorted lt l).
Proof.
  induction l as [| x l IH]; simpl.
  - constructor.
  - now apply insert_StronglySorted.
Qed.
End SortingFacts.

(** ** The generator *)

Lemma consume_yield_rows articles : forall rows,
  consume (yield_rows articles) = OK rows ->
  Forall2 (fun a r => make_row a = OK r) articles rows.
Proof.
  induction articles as [| a articles IH]; simpl; intros rows H.
  - injection H as <-. constructor.
  - destruct (make_row a) as [r |] eqn:Hrow; simpl in H; [| discriminate].
    invert_bind H. injection H as <-. constructor; [exact Hrow | now apply IH].
Qed.

Lemma make_row_fields a r :
  make_row a = OK r ->
  row_count r = Z.of_nat (List.length (purchases a)) /\
  row_name r = name a /\
  py_sum (map total_price (purchases a)) = OK (row_total r) /\
  row_unit_prices r =
    join ", " (map (fun x => py_str (unit_price x)) (purchases a)).
Proof.
  unfold make_row. intros H. invert_bind H. injection H as <-.
  simpl. auto.
Qed.

(** ** Rows and items *)

Lemma Forall2_map_left {A B C : Type} (P : B -> C -> Prop) (f : A -> B) l :
  forall rows, Forall2 P (map f l) rows <-> Forall2 (fun x r => P (f x) r) l rows.
Proof.
  induction l as [| x l IH]; simpl; intros rows; split; intros H;
    inversion H; subst; constructor; auto; now apply IH.
Qed.

Lemma Forall2_In_impl {A B : Type} (P Q : A -> B -> Prop) l :
  forall rows,
    Forall2 P l rows ->
    (forall x r, In x l -> P x r -> Q x r) ->
    Forall2 Q l rows.
Proof.
  induction l as [| x l IH]; intros rows H Himpl; inversion H; subst;
    constructor.
  - apply Himpl; [now left | assumption].
  - apply IH; [assumption |]. intros z r Hz. apply Himpl. now right.
Qed.

Lemma Forall2_StronglySorted {A B : Type} (P : A -> B -> Prop)
  (R : A -> A -> Prop) (R' : B -> B -> Prop) :
  (forall a b r s, P a r -> P b s -> R a b -> R' r s) ->
  forall l rows,
    Forall2 P l rows -> StronglySorted R l -> StronglySorted R' rows.
Proof.
  intros Hrel l rows H. induction H as [| a r l rows Har Hrest IH].
  - constructor.
  - intros Hs. inversion Hs as [| ? ? Hs' Hall]; subst. constructor.
    + now apply IH.
    + clear IH Hs Hs'. induction Hrest as [| b s l rows Hbs Hrest IH].
      * constructor.
      * inversion Hall; subst. constructor; [eapply Hrel; eauto | auto].
Qed.

(** The rows stand for the items of the dict, one row per item number: the
    item numbers can be listed in the order of the rows. *)
Lemma rows_by_item m rows :
  NoDup (dict_keys m) ->
  consume (list_of_purchases (dict_values m)) = OK rows ->
  exists numbers,
    Permutation numbers (dict_keys m) /\
    Forall2 (fun k r => exists a, dict_get k m = Some a /\ make_row a = OK r)
      numbers rows.
Proof.
  intros Hnd H. unfold list_of_purchases, dict_values in H.
  rewrite <- (sorted_map article_lt snd m) in H.
  set (entries := sorted (fun u v => article_lt (snd u) (snd v)) m) in *.
  assert (Hperm : Permutation entries m) by apply sorted_Permutation.
  exists (map fst entries). split.
  - unfold dict_keys. now apply Permutation_map.
  - apply consume_yield_rows, Forall2_map_left in H.
    apply Forall2_map_left. apply (Forall2_In_impl _ _ _ _ H).
    intros [k a] r Hin Hrow. simpl in *. exists a. split; [| exact Hrow].
    apply In_dict_get; [exact Hnd |].
    now apply (Permutation_in _ Hperm).
Qed.

(** * Properties of the specification *)

(** C1. For every input and every item, the [purchase_count] of the item's
    row is the number of item lines, over all receipts, whose article
    [itemNumber] is the item's number, each line counted.  The rows are the
    rows of the items of the dict, one for each item number. *)
Theorem purchase_count_is_line_count data all_items rows :
  parse_receipts data = OK all_items ->
  consume (list_of_purchases (dict_values all_items)) = OK rows ->
  exists numbers,
    Permutation numbers (dict_keys all_items) /\
    Forall2
      (fun k r =>
         (exists a, dict_get k all_items = Some a /\ make_row a = OK r) /\
         row_count r =
         Z.of_nat (List.length (filter (refers_to k) (item_lines data))))
      numbers rows.
Proof.
  intros Hparse Hrows.
  destruct (rows_by_item _ _ (parse_receipts_NoDup _ _ Hparse) Hrows)
    as (numbers & Hperm & Hall).
  exists numbers. split; [exact Hperm |].
  apply (Forall2_In_impl _ _ _ _ Hall).
  intros k r _ (a & Hget & Hrow). split; [now exists a |].
  destruct (parse_receipts_entry _ _ _ _ Hparse Hget) as (_ & _ & _ & Hps).
  apply make_row_fields in Hrow. destruct Hrow as (-> & _).
  f_equal. rewrite <- (length_map Some), Hps. apply length_map.
Qed.

Lemma purchase_count_is_line_count_witness :
  parse_receipts grocery_receipts = OK grocery_items /\
  consume (list_of_purchases (dict_values grocery_items)) = OK grocery_rows /\
  exists numbers,
    Permutation numbers (dict_keys grocery_items) /\
    Forall2
      (fun k r =>
         (exists a, dict_get k grocery_items = Some a /\ make_row a = OK r) /\
         row_count r =
         Z.of_nat
           (List.length (filter (refers_to k) (item_lines grocery_receipts))))
      numbers grocery_rows.
Proof.
  split; [reflexivity |]. split; [reflexivity |].
  apply (purchase_count_is_line_count grocery_receipts grocery_items grocery_rows);
    reflexivity.
Defined.

(** C2. The two receipts for [A1] "Milk", at 10 and at 12, give the single
    row [(2, "Milk", 22, "10, 12")]. *)
Theorem milk_scenario :
  exists receipts,
    parse_receipts milk_receipts = OK receipts /\
    consume (list_of_purchases (dict_values receipts)) =
    OK [ (2, "Milk", PyInt 22, "10, 12") ].
Proof.
  exists milk_items. split; reflexivity.
Qed.

(** C3. The number of rows is the number of distinct article [itemNumber]
    values over all item lines of all receipts, and the empty list of
    receipts gives a report without rows. *)
Theorem row_count_is_distinct_numbers data all_items rows :
  parse_receipts data = OK all_items ->
  consume (list_of_purchases (dict_values all_items)) = OK rows ->
  List.length rows =
    List.length (nodup string_dec (line_numbers (item_lines data))) /\
  print_receipts [] = OK (headers, []).
Proof.
  intros Hparse Hrows. split; [| reflexivity].
  destruct (rows_by_item _ _ (parse_receipts_NoDup _ _ Hparse) Hrows)
    as (numbers & Hperm & Hall).
  rewrite <- (Forall2_length Hall), (Permutation_length Hperm).
  apply Permutation_length, NoDup_Permutation.
  - now apply parse_receipts_NoDup with data.
  - apply NoDup_nodup.
  - intros k. rewrite nodup_In. now apply parse_receipts_keys.
Qed.

Lemma row_count_is_distinct_numbers_witness :
  parse_receipts grocery_receipts = OK grocery_items /\
  consume (list_of_purchases (dict_values grocery_items)) = OK grocery_rows /\
  List.length grocery_rows =
    List.length (nodup string_dec (line_numbers (item_lines grocery_receipts))) /\
  print_receipts [] = OK (headers, []).
Proof.
  split; [reflexivity |]. split; [reflexivity |].
  apply (row_count_is_distinct_numbers grocery_receipts grocery_items grocery_rows);
    reflexivity.
Defined.

(** ** Sums *)

Lemma py_sum_ints zs : forall acc,
  for_each (map PyInt zs) py_add (PyInt acc) =
  OK (PyInt (acc + fold_right Z.add 0 zs)).
Proof.
  induction zs as [| z zs IH]; intros acc; simpl.
  - now rewrite Z.add_0_r.
  - rewrite IH. now rewrite Z.add_assoc.
Qed.

Lemma exact_sum_ints zs :
  exists q, exact_sum (map PyInt zs) = Some q /\
            (q == inject_Z (fold_right Z.add 0%Z zs))%Q.
Proof.
  induction zs as [| z zs (q & Hq & Heq)]; simpl.
  - exists 0%Q. split; reflexivity.
  - rewrite Hq. eexists. split; [reflexivity |].
    rewrite Heq, inject_Z_plus. reflexivity.
Qed.

Lemma Forall2_combine_In {A B : Type} (P : A -> B -> Prop) l rows a r :
  Forall2 P l rows -> In (a, r) (combine l rows) -> P a r.
Proof.
  induction 1 as [| x y l rows Hxy Hrest IH]; simpl.
  - tauto.
  - intros [[= <- <-] | Hin]; auto.
Qed.

(** C4, as the code has it.  The [total_price] of a row is what [sum]
    returns for the [total_price] values of the item: when these are all
    ints it is their exact sum.  (Floats are added in binary64.)  The row
    [r] of the article [a] is the one at its place in the sorted order. *)
Theorem total_price_exact_for_ints receipts rows a r zs :
  consume (list_of_purchases receipts) = OK rows ->
  In (a, r) (combine (sorted article_lt receipts) rows) ->
  map total_price (purchases a) = map PyInt zs ->
  row_total r = PyInt (fold_right Z.add 0 zs) /\ total_is_exact a r.
Proof.
  intros Hrows Hin Hints. unfold list_of_purchases in Hrows.
  apply consume_yield_rows in Hrows.
  pose proof (Forall2_combine_In _ _ _ _ _ Hrows Hin) as Hrow.
  apply make_row_fields in Hrow. destruct Hrow as (_ & _ & Hsum & _).
  unfold py_sum in Hsum. rewrite Hints, py_sum_ints in Hsum.
  injection Hsum as Hsum. simpl in Hsum.
  assert (Htotal : row_total r = PyInt (fold_right Z.add 0 zs)) by congruence.
  split; [exact Htotal |].
  unfold total_is_exact. rewrite Htotal, Hints.
  destruct (exact_sum_ints zs) as (q & -> & Heq). simpl. now rewrite Heq.
Qed.

Lemma total_price_exact_for_ints_witness :
  consume (list_of_purchases (dict_values grocery_items)) = OK grocery_rows /\
  In ({| name := "Bread";
         purchases := [ {| unit_price := PyInt 25; total_price := PyInt 50 |};
                        {| unit_price := PyInt 27; total_price := PyInt 27 |} ] |},
      (2, "Bread", PyInt 77, "25, 27"))
     (combine (sorted article_lt (dict_values grocery_items)) grocery_rows) /\
  map total_price
    [ {| unit_price := PyInt 25; total_price := PyInt 50 |};
      {| unit_price := PyInt 27; total_price := PyInt 27 |} ] =
  map PyInt [50; 27] /\
  row_total (2, "Bread", PyInt 77, "25, 27") = PyInt (fold_right Z.add 0 [50; 27]) /\
  total_is_exact
    {| name := "Bread";
       purchases := [ {| unit_price := PyInt 25; total_price := PyInt 50 |};
                      {| unit_price := PyInt 27; total_price := PyInt 27 |} ] |}
    (2, "Bread", PyInt 77, "25, 27").
Proof.
  split; [reflexivity |].
  split; [vm_compute; tauto |].
  split; [reflexivity |].
  apply (total_price_exact_for_ints (dict_values grocery_items) grocery_rows
           {| name := "Bread";
              purchases :=
                [ {| unit_price := PyInt 25; total_price := PyInt 50 |};
                  {| unit_price := PyInt 27; total_price := PyInt 27 |} ] |}
           (2, "Bread", PyInt 77, "25, 27") [50; 27]).
  - reflexivity.
  - vm_compute. tauto.
  - reflexivity.
Defined.

(** C4, as stated, fails: for an item bought at 0.1 and at 0.2 the row
    holds the float 0.30000000000000004, which is not the sum of the two
    prices. *)
Lemma total_price_not_exact_for_floats :
  parse_receipts candy_receipts = OK [("K9", candy_article)] /\
  consume (list_of_purchases (dict_values [("K9", candy_article)])) =
    OK [candy_row] /\
  ~ total_is_exact candy_article candy_row.
Proof.
  split; [reflexivity |]. split; [vm_compute; reflexivity |].
  unfold total_is_exact. vm_compute. discriminate.
Qed.

(** ** Unit prices *)

Lemma purchases_unit_prices ps : forall lines,
  map Some ps = map purchase_of lines ->
  map Some (map unit_price ps) = map unitPrice lines.
Proof.
  induction ps as [| p ps IH]; intros [| item lines]; simpl; try discriminate.
  - reflexivity.
  - intros [= Hp Hrest]. rewrite (IH _ Hrest). f_equal.
    unfold purchase_of in Hp.
    destruct (unitPrice item); [| discriminate].
    destruct (total item); [| discriminate].
    injection Hp as ->. reflexivity.
Qed.

(** C5. The [unit_prices] of an item's row are the [str] of the [unitPrice]
    values of the item's lines, in the order of the lines in the input,
    joined with [", "]. *)
Theorem unit_prices_in_arrival_order data all_items rows :
  parse_receipts data = OK all_items ->
  consume (list_of_purchases (dict_values all_items)) = OK rows ->
  exists numbers,
    Permutation numbers (dict_keys all_items) /\
    Forall2
      (fun k r =>
         (exists a, dict_get k all_items = Some a /\ make_row a = OK r) /\
         exists prices,
           map Some prices =
             map unitPrice (filter (refers_to k) (item_lines data)) /\
           row_unit_prices r = join ", " (map py_str prices))
      numbers rows.
Proof.
  intros Hparse Hrows.
  destruct (rows_by_item _ _ (parse_receipts_NoDup _ _ Hparse) Hrows)
    as (numbers & Hperm & Hall).
  exists numbers. split; [exact Hperm |].
  apply (Forall2_In_impl _ _ _ _ Hall).
  intros k r _ (a & Hget & Hrow). split; [now exists a |].
  destruct (parse_receipts_entry _ _ _ _ Hparse Hget) as (_ & _ & _ & Hps).
  exists (map unit_price (purchases a)). split.
  - now apply purchases_unit_prices.
  - apply make_row_fields in Hrow. destruct Hrow as (_ & _ & _ & ->).
    now rewrite map_map.
Qed.

Lemma unit_prices_in_arrival_order_witness :
  parse_receipts grocery_receipts = OK grocery_items /\
  consume (list_of_purchases (dict_values grocery_items)) = OK grocery_rows /\
  exists numbers,
    Permutation numbers (dict_keys grocery_items) /\
    Forall2
      (fun k r =>
         (exists a, dict_get k grocery_items = Some a /\ make_row a = OK r) /\
         exists prices,
           map Some prices =
             map unitPrice (filter (refers_to k) (item_lines grocery_receipts)) /\
           row_unit_prices r = join ", " (map py_str prices))
      numbers grocery_rows.
Proof.
  split; [reflexivity |]. split; [reflexivity |].
  apply (unit_prices_in_arrival_order grocery_receipts grocery_items grocery_rows);
    reflexivity.
Defined.

(** C6. The rows come in ascending order of the item name, whatever the
    articles handed to the report builder. *)
Theorem rows_sorted_by_name receipts rows :
  consume (list_of_purchases receipts) = OK rows ->
  StronglySorted name_le rows.
Proof.
  intros Hrows. unfold list_of_purchases in Hrows.
  apply consume_yield_rows in Hrows.
  apply (Forall2_StronglySorted _
           (fun a b => String.leb (name a) (name b) = true) _)
    with (2 := Hrows).
  - intros a b r s Ha Hb Hle. unfold name_le.
    apply make_row_fields in Ha. apply make_row_fields in Hb.
    destruct Ha as (_ & -> & _). destruct Hb as (_ & -> & _). exact Hle.
  - apply sorted_StronglySorted.
    + intros x y z. apply string_leb_trans.
    + apply article_lt_name.
    + apply article_not_lt_name.
Qed.

Lemma rows_sorted_by_name_witness :
  consume (list_of_purchases (dict_values grocery_items)) = OK grocery_rows /\
  StronglySorted name_le grocery_rows.
Proof.
  split; [reflexivity |].
  apply (rows_sorted_by_name (dict_values grocery_items) grocery_rows).
  reflexivity.
Defined.

(** ** Missing keys *)

Lemma parse_item_missing d item :
  match missing_key item with
  | Some key => parse_item d item = Raise (KeyError key)
  | None => exists d', parse_item d item = OK d'
  end.
Proof.
  unfold missing_key, parse_item, subscript.
  destruct (article item) as [a |]; simpl; [| reflexivity].
  destruct (itemNumber a); simpl; [| reflexivity].
  destruct (itemText a); simpl; [| reflexivity].
  rewrite dict_get_ensured. simpl.
  destruct (unitPrice item); simpl; [| reflexivity].
  destruct (total item); simpl; [| reflexivity].
  eexists. reflexivity.
Qed.

Lemma for_each_first_missing lines : forall d,
  match first_missing_in lines with
  | Some key => for_each lines parse_item d = Raise (KeyError key)
  | None => exists m, for_each lines parse_item d = OK m
  end.
Proof.
  induction lines as [| item lines IH]; intros d; cbn [first_missing_in for_each].
  - eexists. reflexivity.
  - pose proof (parse_item_missing d item) as Hitem.
    destruct (missing_key item) as [key |].
    + now rewrite Hitem.
    + destruct Hitem as (d1 & ->). cbn [bind]. apply IH.
Qed.

Lemma parse_receipt_missing d receipt :
  match items receipt with
  | None => parse_receipt d receipt = Raise (KeyError "items")
  | Some its =>
      match first_missing_in its with
      | Some key => parse_receipt d receipt = Raise (KeyError key)
      | None => exists d1, parse_receipt d receipt = OK d1
      end
  end.
Proof.
  unfold parse_receipt, subscript.
  destruct (items receipt) as [its |]; cbn [bind]; [| reflexivity].
  apply for_each_first_missing.
Qed.

(** [parse_receipts] raises the [KeyError] of the first key it misses, and
    returns when it misses none. *)
Lemma parse_receipts_first_missing data : forall d,
  match first_missing_key data with
  | Some key => for_each data parse_receipt d = Raise (KeyError key)
  | None => exists m, for_each data parse_receipt d = OK m
  end.
Proof.
  induction data as [| receipt data IH]; intros d;
    cbn [first_missing_key for_each].
  - eexists. reflexivity.
  - pose proof (parse_receipt_missing d receipt) as Hr.
    destruct (items receipt) as [its |]; [| now rewrite Hr].
    destruct (first_missing_in its) as [key |]; [now rewrite Hr |].
    destruct Hr as (d1 & ->). cbn [bind]. apply IH.
Qed.

(** C7, as the code has it.  When a line of a receipt lacks a key the loops
    read, [parse_receipts] raises [KeyError] carrying the first missing key,
    returns no dict, and [print_receipts] raises the same error instead of
    printing a table. *)
Theorem malformed_line_raises_KeyError data :
  has_malformed_line data ->
  exists key,
    first_missing_key data = Some key /\
    In key required_keys /\
    parse_receipts data = Raise (KeyError key) /\
    print_receipts data = Raise (KeyError key).
Proof.
  intros Hbad. unfold print_receipts, parse_receipts.
  pose proof (parse_receipts_first_missing data []) as Hfirst.
  destruct (first_missing_key data) as [key |].
  - exists key. rewrite Hfirst. repeat split.
    destruct (parse_receipts_result data []) as [(m & Hm) | (key' & Hin & Hm)];
      congruence.
  - exfalso. destruct Hfirst as (m & Hm).
    apply parse_receipts_lines, for_each_parse_item_complete in Hm.
    unfold has_malformed_line in Hbad.
    rewrite Exists_exists in Hbad. destruct Hbad as (item & Hin & Hitem).
    rewrite Forall_forall in Hm. specialize (Hm item Hin). congruence.
Qed.

Lemma malformed_line_raises_KeyError_witness :
  has_malformed_line malformed_receipts /\
  exists key,
    first_missing_key malformed_receipts = Some key /\
    In key required_keys /\
    parse_receipts malformed_receipts = Raise (KeyError key) /\
    print_receipts malformed_receipts = Raise (KeyError key).
Proof.
  assert (H : has_malformed_line malformed_receipts).
  { unfold has_malformed_line. simpl. right. left. reflexivity. }
  split; [exact H |].
  apply (malformed_line_raises_KeyError malformed_receipts H).
Defined.

(** No input makes [parse_receipts] raise a [ParseError]. *)
Lemma parse_receipts_never_ParseError data i :
  parse_receipts data <> Raise (ParseError i).
Proof.
  unfold parse_receipts.
  destruct (parse_receipts_result data []) as [(m & Hm) | (key & _ & Hm)];
    rewrite Hm; discriminate.
Qed.

(** C7, as stated, fails: a line without [unitPrice] makes the aggregation
    raise [KeyError('unitPrice')], not a [ParseError] with a receipt index. *)
Lemma missing_unitPrice_is_not_ParseError :
  has_malformed_line malformed_receipts /\
  parse_receipts malformed_receipts = Raise (KeyError "unitPrice") /\
  ~ exists i, parse_receipts malformed_receipts = Raise (ParseError i).
Proof.
  split.
  - unfold has_malformed_line. simpl. right. left. reflexivity.
  - split; [reflexivity |]. intros (i & Hi). discriminate Hi.
Qed.

(** ** One stable arrangement *)






Section StableUnique.
Context {A : Type} (lt : A -> A -> bool).
Hypothesis lt_irrefl : forall x, lt x x = false.



End StableUnique.

(** The insertion sort of the model meets what Python promises of [sorted]
    on every list whose elements [lt] orders consistently. *)
Section InsertionSortStable.
Context {A : Type} (lt : A -> A -> bool) (l : list A).
Hypothesis lt_irrefl : forall x, lt x x = false.
Hypothesis lt_trans :
  forall x y z, In x l -> In y l -> In z l ->
                lt x y = true -> lt y z = true -> lt x z = true.
Hypothesis lt_negtrans :
  forall x y z, In x l -> In y l -> In z l ->
                lt x y = false -> lt y z = false -> lt x z = false.






End InsertionSortStable.









(** C9. The name of an item, and so of its row, is the [itemText] of the
    first line that carries the item's number; later lines of the number do
    not change it. *)
Theorem name_from_first_line data all_items k a :
  parse_receipts data = OK all_items ->
  dict_get k all_items = Some a ->
  exists first,
    find (refers_to k) (item_lines data) = Some first /\
    line_text first = Some (name a) /\
    forall r, make_row a = OK r -> row_name r = name a.
Proof.
  intros Hparse Hget.
  destruct (parse_receipts_entry _ _ _ _ Hparse Hget) as (first & Hfind & Htext & _).
  exists first. repeat split; [exact Hfind | exact Htext |].
  intros r Hrow. now apply make_row_fields in Hrow.
Qed.

Lemma name_from_first_line_witness :
  parse_receipts grocery_receipts = OK grocery_items /\
  dict_get "B7" grocery_items =
    Some {| name := "Bread";
            purchases := [ {| unit_price := PyInt 25; total_price := PyInt 50 |};
                           {| unit_price := PyInt 27; total_price := PyInt 27 |} ] |} /\
  exists first,
    find (refers_to "B7") (item_lines grocery_receipts) = Some first /\
    line_text first = Some "Bread" /\
    forall r,
      make_row
        {| name := "Bread";
           purchases := [ {| unit_price := PyInt 25; total_price := PyInt 50 |};
                          {| unit_price := PyInt 27; total_price := PyInt 27 |} ] |} =
      OK r ->
      row_name r = "Bread".
Proof.
  split; [reflexivity |]. split; [reflexivity |].
  apply (name_from_first_line grocery_receipts grocery_items "B7"
           {| name := "Bread";
              purchases :=
                [ {| unit_price := PyInt 25; total_price := PyInt 50 |};
                  {| unit_price := PyInt 27; total_price := PyInt 27 |} ] |});
    reflexivity.
Defined.

(** C10. A receipt with an empty [items] array is accepted and leaves the
    dict as it was; receipts of that kind alone give no entry and no row. *)
Theorem empty_receipts_give_no_rows data all_items :
  Forall (fun receipt => items receipt = Some []) data ->
  parse_receipt all_items {| items := Some [] |} = OK all_items /\
  parse_receipts data = OK [] /\
  print_receipts data = OK (headers, []).
Proof.
  intros Hempty. split; [reflexivity |].
  assert (Hparse : parse_receipts data = OK []).
  { unfold parse_receipts. induction Hempty as [| receipt data Hr _ IH].
    - reflexivity.
    - cbn [for_each]. unfold parse_receipt at 1. rewrite Hr. exact IH. }
  split; [exact Hparse |].
  unfold print_receipts. rewrite Hparse. reflexivity.
Qed.

Lemma empty_receipts_give_no_rows_witness :
  Forall (fun receipt => items receipt = Some [])
    [ {| items := Some [] |}; {| items := Some [] |} ] /\
  parse_receipts [ {| items := Some [] |}; {| items := Some [] |} ] = OK [] /\
  print_receipts [ {| items := Some [] |}; {| items := Some [] |} ] =
    OK (headers, []).
Proof.
  assert (H : Forall (fun receipt => items receipt = Some [])
                [ {| items := Some [] |}; {| items := Some [] |} ]).
  { repeat constructor. }
  split; [exact H |].
  apply (empty_receipts_give_no_rows
           [ {| items := Some [] |}; {| items := Some [] |} ] [] H).
Defined.

(** * Further properties of [parse_receipts] *)

(** ** The order of the keys *)

Lemma first_appearances_seen seen seen' numbers :
  (forall n, In n seen <-> In n seen') ->
  first_appearances seen numbers = first_appearances seen' numbers.
Proof.
  revert seen seen'. induction numbers as [| n numbers IH]; intros seen seen' Hsame.
  - reflexivity.
  - simpl. destruct (in_dec string_dec n seen) as [Hin | Hout];
      destruct (in_dec string_dec n seen') as [Hin' | Hout'].
    + now apply IH.
    + exfalso. apply Hout'. now apply Hsame.
    + exfalso. apply Hout. now apply Hsame.
    + f_equal. apply IH. intros x. simpl. rewrite Hsame. tauto.
Qed.

Lemma dict_contains_keys k d : dict_contains k d = true <-> In k (dict_keys d).
Proof.
  unfold dict_contains. pose proof (dict_get_None_keys k d) as Hnone.
  destruct (dict_get k d).
  - split; [intros _ | reflexivity].
    destruct (in_dec string_dec k (dict_keys d)) as [Hin | Hout]; [exact Hin |].
    apply Hnone in Hout. discriminate.
  - split; [discriminate |]. intros Hin. exfalso. now apply Hnone.
Qed.

(** The keys after a run over [lines]: those of the dict at the start, then
    the new item numbers in the order of their first appearance. *)
Lemma for_each_parse_item_keys lines : forall d m,
  for_each lines parse_item d = OK m ->
  dict_keys m =
  dict_keys d ++ first_appearances (dict_keys d) (line_numbers lines).
Proof.
  induction lines as [| item lines IH]; intros d m H.
  - simpl in H. injection H as <-. simpl. now rewrite app_nil_r.
  - cbn [for_each] in H. invert_bind H. rename a into d1.
    destruct (parse_item_OK _ _ _ Ha) as (k & _ & _ & Hk & _ & _ & _ & _ & Hkeys).
    rewrite (IH d1 m H), Hkeys.
    unfold line_numbers. cbn [flat_map]. rewrite Hk.
    change (flat_map _ lines) with (line_numbers lines).
    cbn [app first_appearances].
    destruct (dict_contains k d) eqn:Hc.
    + apply dict_contains_keys in Hc.
      destruct (in_dec string_dec k (dict_keys d)); [reflexivity | contradiction].
    + destruct (in_dec string_dec k (dict_keys d)) as [Hin | Hout].
      * apply dict_contains_keys in Hin. congruence.
      * rewrite <- app_assoc. cbn [app]. do 2 f_equal.
        apply first_appearances_seen. intros n. rewrite in_app_iff. simpl. tauto.
Qed.

(** ** Grouping *)

Lemma purchases_of_lines ps : forall lines,
  map Some ps = map purchase_of lines ->
  flat_map (fun item => match purchase_of item with
                        | Some p => [p]
                        | None => []
                        end) lines = ps.
Proof.
  induction ps as [| p ps IH]; intros [| item lines]; simpl; try discriminate.
  - reflexivity.
  - intros [= Hp Hrest]. rewrite <- Hp. simpl. f_equal. now apply IH.
Qed.

(** A dict without repeated keys is the list of its keys, each with the
    value [dict_get] finds. *)
Lemma dict_by_keys (f : string -> Article) d :
  NoDup (dict_keys d) ->
  (forall k a, dict_get k d = Some a -> a = f k) ->
  d = map (fun k => (k, f k)) (dict_keys d).
Proof.
  unfold dict_keys. induction d as [| [k a] d IH]; simpl; intros Hnd Hget.
  - reflexivity.
  - inversion Hnd as [| ? ? Hout Hnd']; subst. f_equal.
    + f_equal. apply Hget. now rewrite String.eqb_refl.
    + apply IH; [exact Hnd' |]. intros k' a' Hk'. apply Hget.
      destruct (String.eqb k' k) eqn:E; [| exact Hk'].
      apply String.eqb_eq in E. subst k'. exfalso. apply Hout.
      destruct (in_dec string_dec k (map fst d)) as [Hin | Hno]; [exact Hin |].
      apply dict_get_None_keys in Hno. congruence.
Qed.

Lemma parse_receipts_group data m :
  parse_receipts data = OK m -> m = group_lines (item_lines data).
Proof.
  intros Hparse. unfold group_lines.
  pose proof (parse_receipts_lines _ _ _ Hparse) as Hlines.
  pose proof (for_each_parse_item_keys _ _ _ Hlines) as Hkeys.
  simpl in Hkeys. rewrite <- Hkeys.
  apply dict_by_keys; [now apply parse_receipts_NoDup with data |].
  intros k a Hget.
  destruct (parse_receipts_entry _ _ _ _ Hparse Hget) as (first & Hfind & Htext & Hps).
  unfold first_text, purchases_for. rewrite Hfind, Htext.
  rewrite (purchases_of_lines _ _ Hps). now destruct a.
Qed.

(** X1. What [parse_receipts] returns is the item lines grouped by item
    number: one entry for each number, in the order in which the numbers
    first appear, named by the text of the number's first line and holding
    the purchases of its lines in their order. *)
Theorem parse_receipts_groups_lines data all_items :
  parse_receipts data = OK all_items ->
  all_items = group_lines (item_lines data).
Proof. apply parse_receipts_group. Qed.

Lemma parse_receipts_groups_lines_witness :
  parse_receipts grocery_receipts = OK grocery_items /\
  grocery_items = group_lines (item_lines grocery_receipts).
Proof.
  split; [reflexivity |].
  apply (parse_receipts_groups_lines grocery_receipts grocery_items).
  reflexivity.
Defined.

(** ** When [parse_receipts] returns *)

Lemma missing_key_complete item :
  missing_key item = None <-> complete_item item = true.
Proof.
  unfold missing_key, complete_item, line_number, line_text.
  destruct (article item) as [a |]; [| split; discriminate].
  destruct (itemNumber a), (itemText a), (unitPrice item), (total item);
    split; (reflexivity || discriminate).
Qed.

Lemma first_missing_in_complete lines :
  first_missing_in lines = None <-> forallb complete_item lines = true.
Proof.
  induction lines as [| item lines IH]; simpl.
  - tauto.
  - rewrite andb_true_iff, <- IH, <- missing_key_complete.
    destruct (missing_key item); split;
      (discriminate || tauto || (intros [H _]; discriminate H)).
Qed.

Lemma first_missing_key_well_formed data :
  first_missing_key data = None <-> forallb well_formed_receipt data = true.
Proof.
  induction data as [| receipt data IH]; simpl.
  - tauto.
  - rewrite andb_true_iff, <- IH. unfold well_formed_receipt.
    destruct (items receipt) as [its |].
    + rewrite <- first_missing_in_complete.
      destruct (first_missing_in its); split;
        (discriminate || tauto || (intros [H _]; discriminate H)).
    + split; [discriminate | intros [H _]; discriminate H].
Qed.

(** For responses of the modelled shape: the loops return exactly when no
    key is missing. *)
Lemma parse_receipts_OK_iff data :
  (exists m, parse_receipts data = OK m) <->
  forallb well_formed_receipt data = true.
Proof.
  rewrite <- first_missing_key_well_formed. unfold parse_receipts.
  pose proof (parse_receipts_first_missing data []) as H.
  destruct (first_missing_key data) as [key |].
  - split; [| discriminate]. intros (m & Hm). congruence.
  - split; [reflexivity | intros _; exact H].
Qed.

(** ** Receipts and lines *)

(** When every receipt has its [items], the nested loops are one loop over
    all item lines, also when they raise. *)
Lemma for_each_receipts_lines data : forall d,
  Forall (fun receipt => items receipt <> None) data ->
  for_each data parse_receipt d = for_each (item_lines data) parse_item d.
Proof.
  induction data as [| receipt data IH]; intros d Hitems.
  - reflexivity.
  - inversion Hitems as [| ? ? Hr Hrest]; subst.
    cbn [for_each item_lines flat_map]. unfold parse_receipt at 1, subscript.
    destruct (items receipt) as [its |]; [| congruence].
    cbn [bind]. rewrite for_each_app.
    destruct (for_each its parse_item d) as [d1 | e]; cbn [bind].
    + now apply IH.
    + reflexivity.
Qed.

(** X3. How the item lines are split into receipts is of no consequence:
    two responses whose receipts all have [items] and that list the same
    lines in the same order give the same result, dict or exception. *)
Theorem receipt_boundaries_irrelevant data data' :
  Forall (fun receipt => items receipt <> None) data ->
  Forall (fun receipt => items receipt <> None) data' ->
  item_lines data = item_lines data' ->
  parse_receipts data = parse_receipts data'.
Proof.
  intros H H' Hlines. unfold parse_receipts.
  rewrite (for_each_receipts_lines data [] H).
  rewrite (for_each_receipts_lines data' [] H').
  now rewrite Hlines.
Qed.

Lemma receipt_boundaries_irrelevant_witness :
  Forall (fun receipt => items receipt <> None) grocery_receipts /\
  Forall (fun receipt => items receipt <> None)
    [ {| items := Some (item_lines grocery_receipts) |} ] /\
  item_lines grocery_receipts =
    item_lines [ {| items := Some (item_lines grocery_receipts) |} ] /\
  parse_receipts grocery_receipts =
    parse_receipts [ {| items := Some (item_lines grocery_receipts) |} ].
Proof.
  assert (H : Forall (fun receipt => items receipt <> None) grocery_receipts).
  { repeat constructor; discriminate. }
  assert (H' : Forall (fun receipt => items receipt <> None)
                 [ {| items := Some (item_lines grocery_receipts) |} ]).
  { repeat constructor; discriminate. }
  split; [exact H |]. split; [exact H' |]. split; [reflexivity |].
  apply (receipt_boundaries_irrelevant grocery_receipts
           [ {| items := Some (item_lines grocery_receipts) |} ] H H').
  reflexivity.
Defined.

(** ** Responses put end to end *)

Lemma item_lines_app data1 data2 :
  item_lines (data1 ++ data2) = item_lines data1 ++ item_lines data2.
Proof. unfold item_lines. apply flat_map_app. Qed.

Lemma purchases_for_app k lines1 lines2 :
  purchases_for k (lines1 ++ lines2) =
  purchases_for k lines1 ++ purchases_for k lines2.
Proof. unfold purchases_for. now rewrite filter_app, flat_map_app. Qed.

(** The purchases the returned dict holds for any [k], key or not. *)
Lemma parse_receipts_purchases_at data m k :
  parse_receipts data = OK m ->
  purchases_at k m = purchases_for k (item_lines data).
Proof.
  intros Hparse. unfold purchases_at.
  destruct (dict_get k m) as [a |] eqn:Hget.
  - destruct (parse_receipts_entry _ _ _ _ Hparse Hget) as (_ & _ & _ & Hps).
    unfold purchases_for. now rewrite (purchases_of_lines _ _ Hps).
  - apply parse_receipts_lines in Hparse.
    pose proof (for_each_parse_item_entry _ _ _ Hparse k) as Hk. simpl in Hk.
    destruct (find (refers_to k) (item_lines data)) as [first |] eqn:Hfind.
    + destruct Hk as (a' & Ha' & _). congruence.
    + unfold purchases_for.
      assert (Hnil : filter (refers_to k) (item_lines data) = []).
      { destruct (filter (refers_to k) (item_lines data)) as [| item rest] eqn:F;
          [reflexivity |].
        assert (Hin : In item (filter (refers_to k) (item_lines data)))
          by (rewrite F; now left).
        apply filter_In in Hin. destruct Hin as (Hin & Hrefers).
        pose proof (find_none _ _ Hfind item Hin). congruence. }
      now rewrite Hnil.
Qed.

(** X4. When the response [data1 ++ data2] is accepted, so are [data1] and
    [data2], and for every item number the purchases of the whole are those
    of [data1] followed by those of [data2]. *)
Theorem parse_receipts_app data1 data2 all_items :
  parse_receipts (data1 ++ data2) = OK all_items ->
  exists items1 items2,
    parse_receipts data1 = OK items1 /\
    parse_receipts data2 = OK items2 /\
    forall k,
      purchases_at k all_items = purchases_at k items1 ++ purchases_at k items2.
Proof.
  intros Hparse.
  assert (Hwf : forallb well_formed_receipt (data1 ++ data2) = true)
    by (apply parse_receipts_OK_iff; now exists all_items).
  rewrite forallb_app, andb_true_iff in Hwf. destruct Hwf as (Hwf1 & Hwf2).
  apply parse_receipts_OK_iff in Hwf1. destruct Hwf1 as (items1 & H1).
  apply parse_receipts_OK_iff in Hwf2. destruct Hwf2 as (items2 & H2).
  exists items1, items2. repeat split; [exact H1 | exact H2 |].
  intros k.
  rewrite (parse_receipts_purchases_at _ _ k Hparse).
  rewrite (parse_receipts_purchases_at _ _ k H1).
  rewrite (parse_receipts_purchases_at _ _ k H2).
  now rewrite item_lines_app, purchases_for_app.
Qed.

Lemma parse_receipts_app_witness :
  parse_receipts (grocery_receipts ++ milk_receipts) =
    OK (group_lines (item_lines (grocery_receipts ++ milk_receipts))) /\
  exists items1 items2,
    parse_receipts grocery_receipts = OK items1 /\
    parse_receipts milk_receipts = OK items2 /\
    forall k,
      purchases_at k
        (group_lines (item_lines (grocery_receipts ++ milk_receipts))) =
      purchases_at k items1 ++ purchases_at k items2.
Proof.
  split; [reflexivity |].
  apply (parse_receipts_app grocery_receipts milk_receipts).
  reflexivity.
Defined.

(** * Further properties of the report *)

(** ** Counting lines *)

Lemma list_sum_zero {A : Type} (l : list A) :
  list_sum (map (fun _ => O) l) = O.
Proof. induction l; simpl; auto. Qed.

Lemma list_sum_plus {A : Type} (f g : A -> nat) l :
  list_sum (map (fun x => (f x + g x)%nat) l) =
  (list_sum (map f l) + list_sum (map g l))%nat.
Proof. induction l as [| x l IH]; simpl; [reflexivity | rewrite IH; lia]. Qed.

Lemma list_sum_indicator k keys :
  NoDup keys -> In k keys ->
  list_sum (map (fun k' => if String.eqb k k' then 1%nat else O) keys) = 1%nat.
Proof.
  induction 1 as [| k0 keys Hout Hnd IH]; simpl.
  - tauto.
  - intros [-> | Hin].
    + rewrite String.eqb_refl.
      assert (Hrest :
        map (fun k' => if String.eqb k k' then 1%nat else O) keys =
        map (fun _ => O) keys).
      { apply map_ext_in. intros k' Hk'.
        destruct (String.eqb k k') eqn:E; [| reflexivity].
        apply String.eqb_eq in E. congruence. }
      now rewrite Hrest, list_sum_zero.
    + destruct (String.eqb k k0) eqn:E.
      * apply String.eqb_eq in E. congruence.
      * now apply IH.
Qed.

(** Every line carries one of the [keys]: the lines of the keys add up to
    all lines. *)
Lemma lines_by_key keys lines :
  NoDup keys ->
  (forall item, In item lines ->
                exists k, In k keys /\ line_number item = Some k) ->
  list_sum (map (fun k => List.length (filter (refers_to k) lines)) keys) =
  List.length lines.
Proof.
  intros Hnd. induction lines as [| item lines IH]; intros Hall.
  - simpl. apply list_sum_zero.
  - destruct (Hall item (or_introl eq_refl)) as (k0 & Hk0 & Hnum).
    transitivity
      (list_sum (map (fun k => ((if String.eqb k0 k then 1 else 0) +
                                List.length (filter (refers_to k) lines))%nat)
                   keys)).
    + f_equal. apply map_ext. intros k. cbn [filter].
      unfold refers_to at 1. rewrite Hnum.
      destruct (String.eqb k0 k); reflexivity.
    + rewrite list_sum_plus, (list_sum_indicator k0 keys Hnd Hk0), IH.
      * reflexivity.
      * intros item' Hin. apply Hall. now right.
Qed.

Lemma sum_of_nat (l : list nat) :
  fold_right Z.add 0 (map Z.of_nat l) = Z.of_nat (list_sum l).
Proof. induction l as [| n l IH]; simpl; [reflexivity | rewrite IH; lia]. Qed.

Lemma Forall2_map_eq {A B C : Type} (f : A -> C) (g : B -> C) l rows :
  Forall2 (fun x r => g r = f x) l rows -> map g rows = map f l.
Proof. induction 1; simpl; congruence. Qed.

(** X5. The counts of the rows add up to the number of item lines of the
    response: every line is counted in exactly one row. *)
Theorem row_counts_add_up data all_items rows :
  parse_receipts data = OK all_items ->
  consume (list_of_purchases (dict_values all_items)) = OK rows ->
  fold_right Z.add 0 (map row_count rows) =
  Z.of_nat (List.length (item_lines data)).
Proof.
  intros Hparse Hrows.
  pose proof (parse_receipts_NoDup _ _ Hparse) as Hnd.
  destruct (rows_by_item _ _ Hnd Hrows) as (numbers & Hperm & Hall).
  assert (Hcounts :
    map row_count rows =
    map (fun k => Z.of_nat (List.length (filter (refers_to k) (item_lines data))))
      numbers).
  { apply Forall2_map_eq. apply (Forall2_In_impl _ _ _ _ Hall).
    intros k r _ (a & Hget & Hrow).
    destruct (parse_receipts_entry _ _ _ _ Hparse Hget) as (_ & _ & _ & Hps).
    apply make_row_fields in Hrow. destruct Hrow as (-> & _).
    f_equal. rewrite <- (length_map Some), Hps. apply length_map. }
  rewrite Hcounts, <- (map_map _ Z.of_nat), sum_of_nat. f_equal.
  rewrite (Permutation_list_sum (Permutation_map _ Hperm)).
  apply lines_by_key; [exact Hnd |].
  intros item Hin.
  pose proof (parse_receipts_lines _ _ _ Hparse) as Hlines.
  pose proof (for_each_parse_item_complete _ _ _ Hlines) as Hcomplete.
  rewrite Forall_forall in Hcomplete. specialize (Hcomplete item Hin).
  unfold complete_item in Hcomplete.
  destruct (line_number item) as [k |] eqn:Hk; [| discriminate].
  exists k. split; [| reflexivity].
  apply (parse_receipts_keys _ _ k Hparse), In_line_numbers.
  exists item. split; [exact Hin |]. unfold refers_to. rewrite Hk.
  apply String.eqb_refl.
Qed.

Lemma row_counts_add_up_witness :
  parse_receipts grocery_receipts = OK grocery_items /\
  consume (list_of_purchases (dict_values grocery_items)) = OK grocery_rows /\
  fold_right Z.add 0 (map row_count grocery_rows) =
  Z.of_nat (List.length (item_lines grocery_receipts)).
Proof.
  split; [reflexivity |]. split; [reflexivity |].
  apply (row_counts_add_up grocery_receipts grocery_items grocery_rows);
    reflexivity.
Defined.

Lemma Forall2_Forall_right {A B : Type} (P : A -> B -> Prop) (Q : B -> Prop)
  l rows :
  Forall2 P l rows -> (forall x r, P x r -> Q r) -> Forall Q rows.
Proof. induction 1; intros Himpl; constructor; eauto. Qed.

(** X6. No row of a parsed response has a count of zero: an item gets its
    entry together with its first purchase. *)
Theorem rows_have_purchases data all_items rows :
  parse_receipts data = OK all_items ->
  consume (list_of_purchases (dict_values all_items)) = OK rows ->
  Forall (fun r => 1 <= row_count r) rows.
Proof.
  intros Hparse Hrows.
  destruct (rows_by_item _ _ (parse_receipts_NoDup _ _ Hparse) Hrows)
    as (numbers & _ & Hall).
  apply (Forall2_Forall_right _ _ _ _ Hall). clear Hall Hrows rows.
  intros k r (a & Hget & Hrow).
  destruct (parse_receipts_entry _ _ _ _ Hparse Hget) as (first & Hfind & _ & Hps).
  apply make_row_fields in Hrow. destruct Hrow as (-> & _).
  apply find_some in Hfind.
  assert (Hin : In first (filter (refers_to k) (item_lines data)))
    by now apply filter_In.
  assert (Hlen : List.length (purchases a) =
                 List.length (filter (refers_to k) (item_lines data))).
  { rewrite <- (length_map Some), Hps. apply length_map. }
  destruct (filter (refers_to k) (item_lines data)); [contradiction |].
  simpl in Hlen. lia.
Qed.

Lemma rows_have_purchases_witness :
  parse_receipts grocery_receipts = OK grocery_items /\
  consume (list_of_purchases (dict_values grocery_items)) = OK grocery_rows /\
  Forall (fun r => 1 <= row_count r) grocery_rows.
Proof.
  split; [reflexivity |]. split; [reflexivity |].
  apply (rows_have_purchases grocery_receipts grocery_items grocery_rows);
    reflexivity.
Defined.

(** ** Sorting and the rows *)

Lemma Forall2_consume articles : forall rows,
  Forall2 (fun a r => make_row a = OK r) articles rows ->
  consume (yield_rows articles) = OK rows.
Proof.
  induction articles as [| a articles IH]; intros rows H; inversion H; subst;
    simpl.
  - reflexivity.
  - match goal with Hrow : make_row a = OK _ |- _ => rewrite Hrow end.
    simpl. now rewrite (IH _ ltac:(eassumption)).
Qed.

(** X8. Sorting only rearranges: the rows of the report are the rows of the
    articles in the order they were handed over, permuted; none is dropped
    and none is repeated. *)
Theorem list_of_purchases_permutes_rows receipts rows :
  consume (list_of_purchases receipts) = OK rows ->
  exists unsorted,
    Forall2 (fun a r => make_row a = OK r) receipts unsorted /\
    Permutation unsorted rows /\
    List.length rows = List.length receipts.
Proof.
  intros H. unfold list_of_purchases in H. apply consume_yield_rows in H.
  destruct (Permutation_Forall2 (sorted_Permutation article_lt receipts) H)
    as (unsorted & Hperm & Hall).
  exists unsorted. repeat split.
  - exact Hall.
  - now apply Permutation_sym.
  - rewrite (Permutation_length Hperm). symmetry. now apply Forall2_length in Hall.
Qed.

Lemma list_of_purchases_permutes_rows_witness :
  consume (list_of_purchases (dict_values grocery_items)) = OK grocery_rows /\
  exists unsorted,
    Forall2 (fun a r => make_row a = OK r) (dict_values grocery_items) unsorted /\
    Permutation unsorted grocery_rows /\
    List.length grocery_rows = List.length (dict_values grocery_items).
Proof.
  split; [reflexivity |].
  apply (list_of_purchases_permutes_rows (dict_values grocery_items) grocery_rows).
  reflexivity.
Defined.

(** * Properties of the script *)

(** ** A run of [print_receipts] *)

(** The runs of [Script.print_receipts], by what the server answers: the
    login request, then the receipts request with the token of the login
    answer, then the table the core computes from the receipts answer. *)
Lemma script_print_receipts_run srv e p :
  Script.print_receipts srv e p [] =
  match Script.sign_in srv (Script.login_request e p) with
  | Script.ClientFailure =>
      ([Script.Post (Script.login_request e p)],
       Script.Raises Script.ClientError)
  | Script.Body resp =>
      match Script.Uid resp with
      | None =>
          ([Script.Post (Script.login_request e p)],
           Script.Raises (Script.Python (KeyError "Uid")))
      | Some token =>
          match Script.receipts srv (Script.receipts_request token) with
          | Script.ClientFailure =>
              ([Script.Post (Script.login_request e p);
                Script.Post (Script.receipts_request token)],
               Script.Raises Script.ClientError)
          | Script.Body data =>
              match print_receipts data with
              | OK table =>
                  ([Script.Post (Script.login_request e p);
                    Script.Post (Script.receipts_request token);
                    Script.Stdout table],
                   Script.Return tt)
              | Raise ex =>
                  ([Script.Post (Script.login_request e p);
                    Script.Post (Script.receipts_request token)],
                   Script.Raises (Script.Python ex))
              end
          end
      end
  end.
Proof.
  unfold Script.print_receipts, Script.login, Script.get_receipts,
    Script.io_bind, Script.post, Script.lift, Script.emit, print_receipts.
  fold (Script.login_request e p).
  destruct (Script.sign_in srv (Script.login_request e p)) as [resp |];
    [| reflexivity].
  destruct (Script.Uid resp) as [token |]; cbn -[String.append];
    [| reflexivity].
  fold (Script.receipts_request token).
  destruct (Script.receipts srv (Script.receipts_request token)) as [data |];
    cbn -[String.append]; [| reflexivity].
  destruct (parse_receipts data) as [m |]; cbn -[String.append];
    [| reflexivity].
  destruct (consume (list_of_purchases (dict_values m))); reflexivity.
Qed.

Lemma not_given_false value :
  Script.not_given value = false -> exists s, value = Some s /\ s <> "".
Proof.
  destruct value as [[| c s] |]; simpl; try discriminate.
  intros _. eexists. split; [reflexivity | discriminate].
Qed.

(** [main] once [parse_args] has returned the namespace. *)
Lemma script_main_namespace srv args :
  Script.main srv (Script.Namespace args) [] =
  (if Script.not_given (Script.email args)
      || Script.not_given (Script.password args)
   then Script.parser_error "Email and password must be specified"
   else
     match Script.email args, Script.password args with
     | Some e, Some p =>
         if String.eqb (Script.command args) "print"
         then Script.print_receipts srv e p
         else
           Script.io_bind
             (Script.emit
                (Script.Stderr ("Unknown command: " ++ Script.command args
                                ++ Script.newline)%string))
             (fun _ => Script.sys_exit 1)
     | _, _ => Script.parser_error "Email and password must be specified"
     end) [].
Proof. reflexivity. Qed.

(** The runs of [main] on a command line [parse_args] accepts. *)
Lemma script_main_run srv args :
  (Script.not_given (Script.email args)
   || Script.not_given (Script.password args) = true /\
   Script.main srv (Script.Namespace args) [] =
     ([Script.Usage "Email and password must be specified"],
      Script.SystemExit 2)) \/
  (exists e p,
     Script.email args = Some e /\ e <> "" /\
     Script.password args = Some p /\ p <> "" /\
     ((Script.command args = "print" /\
       Script.main srv (Script.Namespace args) [] =
         Script.print_receipts srv e p []) \/
      (Script.command args <> "print" /\
       Script.main srv (Script.Namespace args) [] =
         ([Script.Stderr ("Unknown command: " ++ Script.command args
                          ++ Script.newline)%string],
          Script.SystemExit 1)))).
Proof.
  rewrite script_main_namespace.
  destruct (Script.not_given (Script.email args)
            || Script.not_given (Script.password args)) eqn:Hgiven.
  - left. split; reflexivity.
  - right. apply orb_false_iff in Hgiven. destruct Hgiven as (He & Hp).
    apply not_given_false in He. apply not_given_false in Hp.
    destruct He as (e & -> & He). destruct Hp as (p & -> & Hp).
    exists e, p. repeat split; try assumption.
    destruct (String.eqb (Script.command args) "print") eqn:Hcmd.
    + left. apply String.eqb_eq in Hcmd. auto.
    + right. apply String.eqb_neq in Hcmd. auto.
Qed.

(** Case analysis on a run of [Script.print_receipts]. *)
Ltac script_cases srv e p :=
  rewrite (script_print_receipts_run srv e p);
  let resp := fresh "resp" in
  let token := fresh "token" in
  let data := fresh "data" in
  let table := fresh "table" in
  let Hlogin := fresh "Hlogin" in
  let Huid := fresh "Huid" in
  let Hfetch := fresh "Hfetch" in
  let Hcore := fresh "Hcore" in
  destruct (Script.sign_in srv (Script.login_request e p))
    as [resp |] eqn:Hlogin;
  [ destruct (Script.Uid resp) as [token |] eqn:Huid;
    [ destruct (Script.receipts srv (Script.receipts_request token))
        as [data |] eqn:Hfetch;
      [ destruct (print_receipts data) as [table |] eqn:Hcore | ]
    | ]
  | ].

(** X10. [main] ends the process with an exit status in four cases only:
    the two exits of [parse_args] (status 0 after the help text, status 2
    after a command line it does not accept), status 2 when the email or
    the password is missing or empty, whatever the command, and status 1
    when both are given and the command is not [print].  In all of them no
    request has been sent and no report has been written. *)
Theorem main_exit_status srv argv trace status :
  Script.main srv argv [] = (trace, Script.SystemExit status) ->
  Script.requests trace = [] /\ Script.printed trace = [] /\
  ((exists text, argv = Script.HelpRequested text /\ status = 0) \/
   (exists message, argv = Script.ArgumentError message /\ status = 2) \/
   (exists args,
      argv = Script.Namespace args /\
      ((status = 2 /\
        Script.not_given (Script.email args)
        || Script.not_given (Script.password args) = true) \/
       (status = 1 /\
        Script.not_given (Script.email args)
        || Script.not_given (Script.password args) = false /\
        Script.command args <> "print")))).
Proof.
  destruct argv as [args | text | message].
  - destruct (script_main_run srv args)
      as [(Hmissing & ->)
         | (e & p & He & Hne & Hp & Hnp & [(Hcmd & ->) | (Hcmd & ->)])].
    + intros [= <- <-]. repeat split. right. right. exists args.
      split; [reflexivity |]. left. split; [reflexivity | exact Hmissing].
    + script_cases srv e p; discriminate.
    + intros [= <- <-]. repeat split. right. right. exists args.
      split; [reflexivity |]. right. repeat split; [| exact Hcmd].
      rewrite He, Hp. destruct e; [congruence |]. destruct p; [congruence |].
      reflexivity.
  - intros [= <- <-]. repeat split. left. now exists text.
  - intros [= <- <-]. repeat split. right. left. now exists message.
Qed.

Lemma main_exit_status_witness :
  Script.main Script.shop
    (Script.Namespace
       {| Script.command := "print"; Script.email := Some "ann@example.com";
          Script.password := Some "" |}) [] =
    ([Script.Usage "Email and password must be specified"],
     Script.SystemExit 2) /\
  Script.requests [Script.Usage "Email and password must be specified"] = [] /\
  Script.printed [Script.Usage "Email and password must be specified"] = [] /\
  ((exists text,
      Script.Namespace
        {| Script.command := "print"; Script.email := Some "ann@example.com";
           Script.password := Some "" |} = Script.HelpRequested text /\ 2 = 0) \/
   (exists message,
      Script.Namespace
        {| Script.command := "print"; Script.email := Some "ann@example.com";
           Script.password := Some "" |} = Script.ArgumentError message /\
      2 = 2) \/
   (exists args,
      Script.Namespace
        {| Script.command := "print"; Script.email := Some "ann@example.com";
           Script.password := Some "" |} = Script.Namespace args /\
      ((2 = 2 /\
        Script.not_given (Script.email args)
        || Script.not_given (Script.password args) = true) \/
       (2 = 1 /\
        Script.not_given (Script.email args)
        || Script.not_given (Script.password args) = false /\
        Script.command args <> "print")))).
Proof.
  split; [reflexivity |].
  apply (main_exit_status Script.shop
           (Script.Namespace
              {| Script.command := "print";
                 Script.email := Some "ann@example.com";
                 Script.password := Some "" |})
           [Script.Usage "Email and password must be specified"] 2).
  reflexivity.
Defined.

(** X11. When the login answer carries no [Uid], [print] ends with
    [KeyError('Uid')] after the login request alone: no receipts are
    requested and nothing is printed. *)
Theorem main_login_without_Uid srv args e p resp :
  Script.email args = Some e -> e <> "" ->
  Script.password args = Some p -> p <> "" ->
  Script.command args = "print" ->
  Script.sign_in srv (Script.login_request e p) = Script.Body resp ->
  Script.Uid resp = None ->
  Script.main srv (Script.Namespace args) [] =
    ([Script.Post (Script.login_request e p)],
     Script.Raises (Script.Python (KeyError "Uid"))).
Proof.
  intros He Hne Hp Hnp Hcmd Hlogin Huid.
  destruct (script_main_run srv args)
    as [(Hmissing & _) | (e' & p' & He' & _ & Hp' & _ & [(_ & ->) | (Hcmd' & _)])].
  - rewrite He, Hp in Hmissing. destruct e; [congruence |].
    destruct p; [congruence |]. discriminate.
  - assert (e' = e) by congruence. assert (p' = p) by congruence. subst e' p'.
    rewrite script_print_receipts_run, Hlogin, Huid. reflexivity.
  - contradiction.
Qed.

Lemma main_login_without_Uid_witness :
  Script.main Script.shop
    (Script.Namespace
       {| Script.command := "print"; Script.email := Some "ann@example.com";
          Script.password := Some "guess" |}) [] =
    ([Script.Post (Script.login_request "ann@example.com" "guess")],
     Script.Raises (Script.Python (KeyError "Uid"))).
Proof.
  apply (main_login_without_Uid Script.shop
           {| Script.command := "print"; Script.email := Some "ann@example.com";
              Script.password := Some "guess" |}
           "ann@example.com" "guess" {| Script.Uid := None |});
    (reflexivity || discriminate).
Defined.

(** X12. [main] sends at most two requests, whatever the command line.
    The first is the login with the email and the password of the command
    line; the second is sent only after a login answer with a [Uid], goes to
    the receipts URL and carries ["Bearer "] followed by that [Uid] as its
    authorization. *)
Theorem main_requests srv argv trace out :
  Script.main srv argv [] = (trace, out) ->
  Script.requests trace = [] \/
  exists args e p,
    argv = Script.Namespace args /\
    Script.email args = Some e /\ Script.password args = Some p /\
    Script.command args = "print" /\
    (Script.requests trace = [Script.login_request e p] \/
     exists resp token,
       Script.sign_in srv (Script.login_request e p) = Script.Body resp /\
       Script.Uid resp = Some token /\
       Script.requests trace =
         [Script.login_request e p; Script.receipts_request token]).
Proof.
  destruct argv as [args | text | message];
    [| intros [= <- _]; now left ..].
  destruct (script_main_run srv args)
    as [(_ & ->) | (e & p & He & _ & Hp & _ & [(Hcmd & ->) | (_ & ->)])].
  - intros [= <- _]. now left.
  - intros Hrun. right. exists args, e, p. repeat split; try assumption.
    revert Hrun. script_cases srv e p; intros [= <- _];
      try (left; reflexivity);
      right; exists resp, token; repeat split; assumption.
  - intros [= <- _]. now left.
Qed.

Lemma main_requests_witness :
  Script.main Script.shop
    (Script.Namespace
       {| Script.command := "print"; Script.email := Some "ann@example.com";
          Script.password := Some "secret" |}) [] =
    ([Script.Post (Script.login_request "ann@example.com" "secret");
     Script.Post (Script.receipts_request "T0K3N");
     Script.Stdout (headers, grocery_rows)],
     Script.Return tt) /\
  (Script.requests
     [Script.Post (Script.login_request "ann@example.com" "secret");
     Script.Post (Script.receipts_request "T0K3N");
     Script.Stdout (headers, grocery_rows)] = [] \/
   exists args e p,
     (Script.Namespace
       {| Script.command := "print"; Script.email := Some "ann@example.com";
          Script.password := Some "secret" |}) = Script.Namespace args /\
     Script.email args = Some e /\ Script.password args = Some p /\
     Script.command args = "print" /\
     (Script.requests
        [Script.Post (Script.login_request "ann@example.com" "secret");
     Script.Post (Script.receipts_request "T0K3N");
     Script.Stdout (headers, grocery_rows)] = [Script.login_request e p] \/
      exists resp token,
        Script.sign_in Script.shop (Script.login_request e p) = Script.Body resp /\
        Script.Uid resp = Some token /\
        Script.requests
          [Script.Post (Script.login_request "ann@example.com" "secret");
     Script.Post (Script.receipts_request "T0K3N");
     Script.Stdout (headers, grocery_rows)] =
          [Script.login_request e p; Script.receipts_request token])).
Proof.
  split; [reflexivity |].
  apply (main_requests Script.shop
           (Script.Namespace
       {| Script.command := "print"; Script.email := Some "ann@example.com";
          Script.password := Some "secret" |})
           [Script.Post (Script.login_request "ann@example.com" "secret");
     Script.Post (Script.receipts_request "T0K3N");
     Script.Stdout (headers, grocery_rows)]
           (Script.Return tt)).
  reflexivity.
Defined.

(** X13. [main] writes the report to the standard output only when
    everything has succeeded, and then one table: the one the core computes
    from the receipts answer.  A run that ends with an exit status or an
    exception has written no table; the one other thing [main] ever writes
    to the standard output is the help text of [parse_args], before exit
    status 0. *)
Theorem main_prints_only_on_success srv argv trace out :
  Script.main srv argv [] = (trace, out) ->
  (out = Script.Return tt /\
   Script.help_texts trace = [] /\
   exists args e p resp token data table,
     argv = Script.Namespace args /\
     Script.email args = Some e /\ Script.password args = Some p /\
     Script.sign_in srv (Script.login_request e p) = Script.Body resp /\
     Script.Uid resp = Some token /\
     Script.receipts srv (Script.receipts_request token) = Script.Body data /\
     print_receipts data = OK table /\
     Script.printed trace = [table]) \/
  (out <> Script.Return tt /\ Script.printed trace = [] /\
   (Script.help_texts trace = [] \/
    exists text,
      argv = Script.HelpRequested text /\ out = Script.SystemExit 0 /\
      trace = [Script.Help text])).
Proof.
  destruct argv as [args | text | message].
  - destruct (script_main_run srv args)
      as [(_ & ->) | (e & p & He & _ & Hp & _ & [(Hcmd & ->) | (_ & ->)])].
    + intros [= <- <-]. right.
      split; [discriminate |]. split; [reflexivity | now left].
    + script_cases srv e p; intros [= <- <-];
        try (right; split; [discriminate |]; split; [reflexivity | now left]).
      left. split; [reflexivity |]. split; [reflexivity |].
      exists args, e, p, resp, token, data, table. repeat split; assumption.
    + intros [= <- <-]. right.
      split; [discriminate |]. split; [reflexivity | now left].
  - intros [= <- <-]. right. split; [discriminate |]. split; [reflexivity |].
    right. now exists text.
  - intros [= <- <-]. right.
    split; [discriminate |]. split; [reflexivity | now left].
Qed.

Lemma main_prints_only_on_success_witness :
  Script.main Script.shop (Script.HelpRequested "usage") [] =
    ([Script.Help "usage"], Script.SystemExit 0) /\
  ((Script.SystemExit 0 = Script.Return tt /\
    Script.help_texts [Script.Help "usage"] = [] /\
    exists args e p resp token data table,
      Script.HelpRequested "usage" = Script.Namespace args /\
      Script.email args = Some e /\ Script.password args = Some p /\
      Script.sign_in Script.shop (Script.login_request e p) = Script.Body resp /\
      Script.Uid resp = Some token /\
      Script.receipts Script.shop (Script.receipts_request token) =
        Script.Body data /\
      print_receipts data = OK table /\
      Script.printed [Script.Help "usage"] = [table]) \/
   (Script.SystemExit 0 <> Script.Return tt /\
    Script.printed [Script.Help "usage"] = [] /\
    (Script.help_texts [Script.Help "usage"] = [] \/
     exists text,
       Script.HelpRequested "usage" = Script.HelpRequested text /\
       Script.SystemExit (A := unit) 0 = Script.SystemExit 0 /\
       [Script.Help "usage"] = [Script.Help text]))).
Proof.
  split; [reflexivity |].
  apply (main_prints_only_on_success Script.shop (Script.HelpRequested "usage")
           [Script.Help "usage"] (Script.SystemExit 0)).
  reflexivity.
Defined.

(** X14. With both credentials given, the command [print], a login answer
    with a [Uid], a receipts answer and a response the core accepts, [main]
    returns after exactly the two requests and one table on the standard
    output, the table the core computes from the response. *)
Theorem main_prints_report srv args e p resp token data table :
  Script.email args = Some e -> e <> "" ->
  Script.password args = Some p -> p <> "" ->
  Script.command args = "print" ->
  Script.sign_in srv (Script.login_request e p) = Script.Body resp ->
  Script.Uid resp = Some token ->
  Script.receipts srv (Script.receipts_request token) = Script.Body data ->
  print_receipts data = OK table ->
  Script.main srv (Script.Namespace args) [] =
    ([Script.Post (Script.login_request e p);
      Script.Post (Script.receipts_request token);
      Script.Stdout table],
     Script.Return tt).
Proof.
  intros He Hne Hp Hnp Hcmd Hlogin Huid Hfetch Hcore.
  destruct (script_main_run srv args)
    as [(Hmissing & _) | (e' & p' & He' & _ & Hp' & _ & [(_ & ->) | (Hcmd' & _)])].
  - rewrite He, Hp in Hmissing. destruct e; [congruence |].
    destruct p; [congruence |]. discriminate.
  - assert (e' = e) by congruence. assert (p' = p) by congruence. subst e' p'.
    rewrite script_print_receipts_run, Hlogin, Huid, Hfetch, Hcore. reflexivity.
  - contradiction.
Qed.

Lemma main_prints_report_witness :
  Script.main Script.shop
    (Script.Namespace
       {| Script.command := "print"; Script.email := Some "ann@example.com";
          Script.password := Some "secret" |}) [] =
    ([Script.Post (Script.login_request "ann@example.com" "secret");
     Script.Post (Script.receipts_request "T0K3N");
     Script.Stdout (headers, grocery_rows)],
     Script.Return tt).
Proof.
  apply (main_prints_report Script.shop
           {| Script.command := "print"; Script.email := Some "ann@example.com";
              Script.password := Some "secret" |}
           "ann@example.com" "secret" {| Script.Uid := Some "T0K3N" |} "T0K3N"
           grocery_receipts (headers, grocery_rows));
    (reflexivity || discriminate).
Defined.

(** X15. [parse_receipts] stops at the first exception: what follows the
    receipts it has raised on is not looked at, so a response that makes it
    raise makes it raise the same with any receipts added behind. *)
Theorem parse_receipts_first_exception data more e :
  parse_receipts data = Raise e ->
  parse_receipts (data ++ more) = Raise e.
Proof.
  unfold parse_receipts. intros H. now rewrite for_each_app, H.
Qed.

Lemma parse_receipts_first_exception_witness :
  parse_receipts malformed_receipts = Raise (KeyError "unitPrice") /\
  parse_receipts (malformed_receipts ++ [ {| items := None |} ]) =
    Raise (KeyError "unitPrice").
Proof.
  split; [reflexivity |].
  apply (parse_receipts_first_exception malformed_receipts
           [ {| items := None |} ] (KeyError "unitPrice")).
  reflexivity.
Defined.
